(** * OSFileSystem: the native bridge for readv, writev and transfer

    A shallow embedding of
    [luni/src/main/native/org_apache_harmony_luni_platform_OSFileSystem.cpp].

    The file marshals three Java [int[]]s into a native [iovec[]], issues one
    system call and turns its outcome into a return value or a pending Java
    exception.  Everything the C++ code calls but does not define (the
    allocator, the JNI helpers, the kernel) is an explicit interface; the code
    of the file itself is written out as monadic programs over a state that
    holds the pending exception, the log of system calls issued so far and the
    state of the outside world. *)

From Stdlib Require Import ZArith Lia Bool String.
From Stdlib.Strings Require Import Byte.
From stdpp Require Import base tactics option list gmap.

Local Open Scope Z_scope.

(* ===================================================================== *)
(** ** Machine integers *)
(* ===================================================================== *)

Module Int.

(** The platform's integer widths that matter here. *)
Inductive width := W32 | W64.

Definition bits (w : width) : Z :=
  match w with W32 => 32 | W64 => 64 end.

Definition modulus (w : width) : Z := 2 ^ bits w.
Definition half_modulus (w : width) : Z := 2 ^ (bits w - 1).

(** Value of a [w]-bit two's-complement integer holding [x] modulo [2^w]. *)
Definition signed (w : width) (x : Z) : Z :=
  (x + half_modulus w) mod modulus w - half_modulus w.

(** Value of a [w]-bit unsigned integer holding [x] modulo [2^w]. *)
Definition unsigned (w : width) (x : Z) : Z := x mod modulus w.

Definition in_signed (w : width) (x : Z) : Prop :=
  - half_modulus w <= x < half_modulus w.

Definition in_unsigned (w : width) (x : Z) : Prop :=
  0 <= x < modulus w.

End Int.

(** [jint] is a 32-bit and [jlong] a 64-bit signed integer. *)
Definition jint_min : Z := - 2 ^ 31.
Definition jint_max : Z := 2 ^ 31 - 1.
Definition is_jint (x : Z) : Prop := jint_min <= x <= jint_max.
Definition is_jlong (x : Z) : Prop := - 2 ^ 63 <= x <= 2 ^ 63 - 1.

(** [a + b] on two [jint]s: the 32-bit addition of the machine. *)
Definition jint_add (a b : Z) : Z := Int.signed Int.W32 (a + b).

(** [reinterpret_cast<void*>(x)] of an [int]: the pointer whose integer value
    is [x] (the same bits on a 32-bit target, the sign extension on a 64-bit
    one).  Pointers are kept by their [intptr_t] value throughout. *)
Definition void_ptr_of_jint (x : Z) : Z := x.

(* ===================================================================== *)
(** ** Data *)
(* ===================================================================== *)

(** [struct iovec].  [iov_base] is a [void*], kept as the integer value of the
    pointer ([intptr_t]); [iov_len] is a [size_t]. *)
Record iovec := mk_iovec { iov_base : Z; iov_len : Z }.

(** The number of bytes a vector list asks for. *)
Definition total_length (vectors : list iovec) : Z :=
  foldr (fun v acc => iov_len v + acc) 0 vectors.



(** What a native method can leave pending in the [JNIEnv]. *)
Inductive Throwable :=
| OutOfMemoryError
| IOException (errnum : Z)
| OtherThrowable (cls : string).

(** Modelled from the spec: the array-access step ([ScopedIntArrayRO] of
    [ScopedPrimitiveArray.h], which is not among the sources).  A Java
    [int[]] argument either can be read, and then the native code sees its
    elements, or cannot, and then the access step itself raises a failure and
    hands back a null view. *)
Inductive jintArray :=
| IntArray (elems : list Z)
| Inaccessible (failure : Throwable).

(** The failure raised by the first of the three arrays, in the order
    [initIoVec] opens them, that cannot be accessed. *)
Definition first_inaccessible (jBuffers jOffsets jLengths : jintArray)
  : option Throwable :=
  match jBuffers, jOffsets, jLengths with
  | Inaccessible t, _, _ => Some t
  | IntArray _, Inaccessible t, _ => Some t
  | IntArray _, IntArray _, Inaccessible t => Some t
  | IntArray _, IntArray _, IntArray _ => None
  end.

(** A reference to a Java object (here: the [java.io.FileDescriptor] of the
    destination socket). *)
Definition jobject := Z.

(** The system calls the file can issue, with the arguments as passed. *)
Inductive Syscall :=
| SysReadv (fd : Z) (vectors : list iovec) (count : Z)
| SysWritev (fd : Z) (vectors : list iovec) (count : Z)
| SysSendfile (out_fd in_fd : Z) (offset : Z) (count : Z)
| SysSendfile6 (fd s : Z) (offset : Z) (len : Z).

(* ===================================================================== *)
(** ** The environment of the native code *)
(* ===================================================================== *)

(** Build configuration: [HAVE_SYS_SENDFILE_H] and the widths of the native
    types.  [word] is the width of [size_t], [ssize_t], [long] and pointers,
    [off] the width of [off_t]. *)
Class Config := {
  HAVE_SYS_SENDFILE_H : bool;
  word : Int.width;
  off : Int.width;
}.

(** Everything outside the file, as functions of a world state [W]:
    - [errno]: the thread's [errno];
    - [alloc_iovec n]: whether [new iovec[n]] yields an array;
    - [uninit_iovec]: the indeterminate contents of a fresh array;
    - [get_fd]: the descriptor [jniGetFDFromFileDescriptor] reads out of a
      [FileDescriptor] object;
    - [os_readv], [os_writev]: [readv(2)] and [writev(2)], giving the
      [ssize_t] result;
    - [os_sendfile]: Linux [sendfile(out_fd, in_fd, &off, count)], giving the
      result and the updated offset;
    - [os_sendfile6]: the BSD/OS X [sendfile(fd, s, offset, &len, NULL, 0)],
      giving the [int] result and the updated [len]. *)
Class World (W : Type) := {
  errno : W -> Z;
  alloc_iovec : Z -> W -> bool * W;
  uninit_iovec : W -> nat -> iovec;
  get_fd : jobject -> W -> Z;
  os_readv : Z -> list iovec -> Z -> W -> Z * W;
  os_writev : Z -> list iovec -> Z -> W -> Z * W;
  os_sendfile : Z -> Z -> Z -> Z -> W -> (Z * Z) * W;
  os_sendfile6 : Z -> Z -> Z -> Z -> W -> (Z * Z) * W;
}.

(** The state a native call runs in. *)
Record State (W : Type) := mk_State {
  pending : option Throwable;   (* the exception pending in the JNIEnv *)
  calls : list Syscall;         (* system calls issued, newest first *)
  world : W;
}.
Arguments mk_State {W} _ _ _.
Arguments pending {W} _.
Arguments calls {W} _.
Arguments world {W} _.

(* ===================================================================== *)
(** ** The monad of native code *)
(* ===================================================================== *)

(** A computation takes a state and either goes wrong ([None]: the C++
    program reads outside an array, which has no defined behaviour) or gives
    a value and a new state. *)
Definition M (W A : Type) : Type := State W -> option (A * State W).

Definition ret {W A} (a : A) : M W A := fun s => Some (a, s).

Definition bind {W A B} (m : M W A) (k : A -> M W B) : M W B :=
  fun s => match m s with
           | Some (a, s') => k a s'
           | None => None
           end.

Definition undefined {W A} : M W A := fun _ => None.

Definition lift_option {W A} (o : option A) : M W A :=
  match o with Some a => ret a | None => undefined end.

Declare Scope native_scope.
Delimit Scope native_scope with native.
Notation "x <- c1 ;; c2" := (bind c1 (fun x => c2))
  (at level 100, c1 at next level, right associativity) : native_scope.
Notation "c1 ;; c2" := (bind c1 (fun _ => c2))
  (at level 100, right associativity) : native_scope.
Local Open Scope native_scope.

Section Native.

Context `{Config} {W : Type} `{World W}.

(* ------------------------------------------------------------------- *)
(** *** Conversions between the native integer types *)

(** [jint] to [size_t] (the assignment [iov_len = lengths[i]]). *)
Definition size_t_of_jint (x : Z) : Z := Int.unsigned word x.
(** [jlong] to [size_t] (the [count] argument of [sendfile]). *)
Definition size_t_of_jlong (x : Z) : Z := Int.unsigned word x.
(** [jlong] to [off_t] ([off_t off = offset]). *)
Definition off_t_of_jlong (x : Z) : Z := Int.signed off x.
(** [size_t] to [off_t] ([off_t len = count] in the adapter). *)
Definition off_t_of_size_t (x : Z) : Z := Int.signed off x.
(** [off_t] to [ssize_t] ([return len] in the adapter). *)
Definition ssize_t_of_off_t (x : Z) : Z := Int.signed word x.

(* ------------------------------------------------------------------- *)
(** *** Primitive actions *)

Definition get_errno : M W Z := fun s => Some (errno (world s), s).

Definition throw (t : Throwable) : M W unit :=
  fun s => Some (tt, mk_State (Some t) (calls s) (world s)).

(** Modelled from the spec: [jniThrowOutOfMemoryError] ([JniException.h],
    not among the sources) raises the out-of-memory signal. *)
Definition jniThrowOutOfMemoryError : M W unit := throw OutOfMemoryError.

(** [jniThrowIOException(env, errnum)] raises the I/O failure that carries
    the error number. *)
Definition jniThrowIOException (errnum : Z) : M W unit :=
  throw (IOException errnum).

(** [jniGetFDFromFileDescriptor(env, sd)]. *)
Definition jniGetFDFromFileDescriptor (sd : jobject) : M W Z :=
  fun s => Some (get_fd sd (world s), s).

(** Modelled from the spec: [ScopedIntArrayRO] and its [get()]: [Some] view
    of the elements, or [None] (a null view) with the failure of the access
    step pending. *)
Definition ScopedIntArrayRO (a : jintArray) : M W (option (list Z)) :=
  match a with
  | IntArray elems => ret (Some elems)
  | Inaccessible t => throw t ;; ret None
  end.

(** [new iovec[size]]: [None] is the null pointer. *)
Definition new_iovec (size : Z) : M W (option (list iovec)) :=
  fun s =>
    let '(ok, w) := alloc_iovec size (world s) in
    Some (if ok then Some (map (uninit_iovec w) (seq 0 (Z.to_nat size)))
          else None,
          mk_State (pending s) (calls s) w).

(** A system call: logged, and run by the world. *)
Definition syscall {R} (c : Syscall) (run : W -> R * W) : M W R :=
  fun s => let '(r, w) := run (world s) in
           Some (r, mk_State (pending s) (c :: calls s) w).

Definition readv (fd : Z) (vectors : list iovec) (count : Z) : M W Z :=
  syscall (SysReadv fd vectors count) (os_readv fd vectors count).

Definition writev (fd : Z) (vectors : list iovec) (count : Z) : M W Z :=
  syscall (SysWritev fd vectors count) (os_writev fd vectors count).

Definition sendfile_linux (out_fd in_fd offset count : Z) : M W (Z * Z) :=
  syscall (SysSendfile out_fd in_fd offset count)
          (os_sendfile out_fd in_fd offset count).

Definition sendfile6 (fd s offset len : Z) : M W (Z * Z) :=
  syscall (SysSendfile6 fd s offset len) (os_sendfile6 fd s offset len).

(* ------------------------------------------------------------------- *)
(** *** The code of the file *)

(** The adapter defined when there is no [<sys/sendfile.h>]:
<<
  off_t len = count;
  int result = sendfile(in_fd, out_fd, *offset, &len, NULL, 0);
  if (result < 0) return -1;
  return len;
>> *)
Definition sendfile_adapter (out_fd in_fd offset count : Z) : M W Z :=
  let len := off_t_of_size_t count in
  r <- sendfile6 in_fd out_fd offset len ;;
  let '(result, len') := r in
  if result <? 0 then ret (-1)
  else ret (ssize_t_of_off_t len').

(** [sendfile(out_fd, in_fd, &off, count)] as [OSFileSystem_transfer] sees
    it: the system call, or the adapter. *)
Definition sendfile (out_fd in_fd offset count : Z) : M W Z :=
  if HAVE_SYS_SENDFILE_H
  then r <- sendfile_linux out_fd in_fd offset count ;; ret (fst r)
  else sendfile_adapter out_fd in_fd offset count.

(** The loop of [initIoVec],
<<
  for (int i = 0; i < size; ++i) {
      vectors[i].iov_base = reinterpret_cast<void*>(buffers[i] + offsets[i]);
      vectors[i].iov_len = lengths[i];
  }
>>
    with [n] iterations left to run from index [i].  Reading an array past
    its end gives [None]. *)
Fixpoint fill_vectors (buffers offsets lengths : list Z)
         (n : nat) (i : nat) (vectors : list iovec) : option (list iovec) :=
  match n with
  | O => Some vectors
  | S n' =>
      match buffers !! i, offsets !! i, lengths !! i with
      | Some b, Some o, Some l =>
          fill_vectors buffers offsets lengths n' (S i)
            (<[i := mk_iovec (void_ptr_of_jint (jint_add b o))
                           (size_t_of_jint l)]> vectors)
      | _, _, _ => None
      end
  end.

(** [initIoVec]: [Some vectors], or [None] for the null pointer. *)
Definition initIoVec (jBuffers jOffsets jLengths : jintArray) (size : Z)
  : M W (option (list iovec)) :=
  vectors <- new_iovec size ;;
  match vectors with
  | None => jniThrowOutOfMemoryError ;; ret None
  | Some vectors =>
      buffers <- ScopedIntArrayRO jBuffers ;;
      match buffers with
      | None => ret None
      | Some buffers =>
          offsets <- ScopedIntArrayRO jOffsets ;;
          match offsets with
          | None => ret None
          | Some offsets =>
              lengths <- ScopedIntArrayRO jLengths ;;
              match lengths with
              | None => ret None
              | Some lengths =>
                  filled <- lift_option
                    (fill_vectors buffers offsets lengths
                                  (Z.to_nat size) 0 vectors) ;;
                  ret (Some filled)
              end
          end
      end
  end.

Definition OSFileSystem_readv (fd : Z) (jBuffers jOffsets jLengths : jintArray)
           (size : Z) : M W Z :=
  vectors <- initIoVec jBuffers jOffsets jLengths size ;;
  match vectors with
  | None => ret (-1)
  | Some vectors =>
      result <- readv fd vectors size ;;
      if result =? 0 then ret (-1)
      else
        (if result =? -1
         then e <- get_errno ;; jniThrowIOException e
         else ret tt) ;;
        ret result
  end.

Definition OSFileSystem_writev (fd : Z) (jBuffers jOffsets jLengths : jintArray)
           (size : Z) : M W Z :=
  vectors <- initIoVec jBuffers jOffsets jLengths size ;;
  match vectors with
  | None => ret (-1)
  | Some vectors =>
      result <- writev fd vectors size ;;
      (if result =? -1
       then e <- get_errno ;; jniThrowIOException e
       else ret tt) ;;
      ret result
  end.

Definition OSFileSystem_transfer (fd : Z) (sd : jobject) (offset count : Z)
  : M W Z :=
  socket <- jniGetFDFromFileDescriptor sd ;;
  if socket =? -1 then ret (-1)
  else
    let off := off_t_of_jlong offset in
    rc <- sendfile socket fd off (size_t_of_jlong count) ;;
    (if rc =? -1
     then e <- get_errno ;; jniThrowIOException e
     else ret tt) ;;
    ret rc.

(** The vector list that three arrays stand for, written as a list and
    without the loop: entry [i] pairs the pointer [buffers[i] + offsets[i]]
    with the length [lengths[i]], for the first [n] indices.  This is the
    reading of the specification, against which [initIoVec] is compared. *)
Fixpoint iovecs_of (buffers offsets lengths : list Z) (n : nat)
  : list iovec :=
  match n, buffers, offsets, lengths with
  | S n', b :: bs, o :: os, l :: ls =>
      mk_iovec (void_ptr_of_jint (jint_add b o)) (size_t_of_jint l)
      :: iovecs_of bs os ls n'
  | _, _, _, _ => []
  end.

End Native.

(* ===================================================================== *)
(** ** A reference world *)
(* ===================================================================== *)

(** A small executable world in which the native code can be run: a heap
    budget for the allocator, a table of [FileDescriptor] objects, a byte
    memory and a table of open files with their contents and positions.  Its
    system calls follow the manual pages for a regular file: [writev] gathers
    the buffers in order and stores them at the file position, [readv] takes
    the bytes at the file position and scatters them into the buffers in
    order, both advance the position by what they moved, and both fail with
    -1 and an [errno] on a descriptor that is not open ([EBADF]), on a count
    that is negative or above [IOV_MAX], on lengths that sum to more than
    [SSIZE_MAX] ([EINVAL]) and on a buffer outside the memory ([EFAULT]).
    This is the environment, not a part of the file under study. *)
Module Ref.

Definition EBADF : Z := 9.
Definition EFAULT : Z := 14.
Definition EINVAL : Z := 22.

(** The limits of [readv(2)] and [writev(2)]: the largest vector count, and
    the largest total length (that of a 32-bit [ssize_t]). *)
Definition IOV_MAX : Z := 1024.
Definition SSIZE_MAX : Z := 2 ^ 31 - 1.

Record File := mk_File {
  content : list byte;
  position : nat;
}.

Record machine := mk_machine {
  w_errno : Z;
  w_heap : Z;                 (* the largest [iovec] array the heap can hold *)
  w_objects : gmap Z Z;       (* the descriptor held by each FileDescriptor *)
  w_memory : gmap Z byte;     (* the mapped addresses and their bytes *)
  w_files : gmap Z File;      (* the open descriptors *)
}.

Definition fail {R} (dflt : R) (e : Z) (w : machine) : R * machine :=
  (dflt, mk_machine e (w_heap w) (w_objects w) (w_memory w) (w_files w)).

Definition with_io (mem : gmap Z byte) (files : gmap Z File) (w : machine)
  : machine :=
  mk_machine (w_errno w) (w_heap w) (w_objects w) mem files.

(** [new iovec[n]] succeeds when the heap has room for [n] entries; the
    array lives for one call only, so the room is not used up. *)
Definition alloc (n : Z) (w : machine) : bool * machine :=
  ((0 <=? n) && (n <=? w_heap w), w).

Definition junk (w : machine) (i : nat) : iovec :=
  mk_iovec (-1 - Z.of_nat i) (w_heap w).

Definition descriptor_of (sd : jobject) (w : machine) : Z :=
  default (-1) (w_objects w !! sd).

(** The bytes at addresses [a, a + n). *)
Fixpoint read_bytes (mem : gmap Z byte) (a : Z) (n : nat)
  : option (list byte) :=
  match n with
  | O => Some []
  | S n' =>
      match mem !! a, read_bytes mem (a + 1) n' with
      | Some b, Some rest => Some (b :: rest)
      | _, _ => None
      end
  end.

(** Store [data] at addresses [a, a + length data). *)
Fixpoint write_bytes (mem : gmap Z byte) (a : Z) (data : list byte)
  : option (gmap Z byte) :=
  match data with
  | [] => Some mem
  | b :: rest =>
      match mem !! a with
      | Some _ => write_bytes (<[a := b]> mem) (a + 1) rest
      | None => None
      end
  end.


(** The buffers of [vectors], one after the other. *)
Fixpoint gather (mem : gmap Z byte) (vectors : list iovec)
  : option (list byte) :=
  match vectors with
  | [] => Some []
  | v :: vs =>
      match read_bytes mem (iov_base v) (Z.to_nat (iov_len v)),
            gather mem vs with
      | Some chunk, Some rest => Some (chunk ++ rest)
      | _, _ => None
      end
  end.

(** Fill the buffers of [vectors] in order from [data]. *)
Fixpoint scatter (mem : gmap Z byte) (vectors : list iovec)
         (data : list byte) : option (gmap Z byte) :=
  match vectors with
  | [] => Some mem
  | v :: vs =>
      let n := Z.to_nat (iov_len v) in
      match write_bytes mem (iov_base v) (take n data) with
      | Some mem' => scatter mem' vs (drop n data)
      | None => None
      end
  end.

(** [content] with [data] stored at offset [pos]. *)
Definition store_at (pos : nat) (data : list byte) (content : list byte)
  : list byte :=
  resize pos "000"%byte content ++ data ++ drop (pos + length data) content.

Definition ref_readv (fd : Z) (vectors : list iovec) (count : Z) (w : machine)
  : Z * machine :=
  match w_files w !! fd with
  | None => fail (-1) EBADF w
  | Some f =>
      let vs := take (Z.to_nat count) vectors in
      if (count <? 0) || (IOV_MAX <? count)
         || (SSIZE_MAX <? total_length vs)
      then fail (-1) EINVAL w
      else
        let data := take (Z.to_nat (total_length vs))
                         (drop (position f) (content f)) in
        match scatter (w_memory w) vs data with
        | None => fail (-1) EFAULT w
        | Some mem =>
            (Z.of_nat (length data),
             with_io mem
               (<[fd := mk_File (content f) (position f + length data)]>
                  (w_files w)) w)
        end
  end.

Definition ref_writev (fd : Z) (vectors : list iovec) (count : Z) (w : machine)
  : Z * machine :=
  match w_files w !! fd with
  | None => fail (-1) EBADF w
  | Some f =>
      let vs := take (Z.to_nat count) vectors in
      if (count <? 0) || (IOV_MAX <? count)
         || (SSIZE_MAX <? total_length vs)
      then fail (-1) EINVAL w
      else
        match gather (w_memory w) vs with
        | None => fail (-1) EFAULT w
        | Some data =>
            (Z.of_nat (length data),
             with_io (w_memory w)
               (<[fd := mk_File (store_at (position f) data (content f))
                                (position f + length data)]>
                  (w_files w)) w)
        end
  end.

(** Copy up to [count] bytes of [in_fd] from [offset] to [out_fd]; gives the
    bytes copied, or [None] with the [errno] to report. *)
Definition copy_file (out_fd in_fd offset count : Z) (w : machine)
  : Z + nat * machine :=
  match w_files w !! in_fd, w_files w !! out_fd with
  | Some src, Some dst =>
      if offset <? 0 then inl EINVAL
      else
        let data := take (Z.to_nat count)
                         (drop (Z.to_nat offset) (content src)) in
        inr (length data,
             with_io (w_memory w)
               (<[out_fd := mk_File (store_at (position dst) data (content dst))
                                    (position dst + length data)]>
                  (w_files w)) w)
  | _, _ => inl EBADF
  end.

Definition ref_sendfile (out_fd in_fd offset count : Z) (w : machine)
  : (Z * Z) * machine :=
  match copy_file out_fd in_fd offset count w with
  | inl e => fail (-1, offset) e w
  | inr (n, w') => ((Z.of_nat n, offset + Z.of_nat n), w')
  end.

Definition ref_sendfile6 (fd s offset len : Z) (w : machine)
  : (Z * Z) * machine :=
  match copy_file s fd offset len w with
  | inl e => fail (-1, 0) e w
  | inr (n, w') => ((0, Z.of_nat n), w')
  end.





#[global] Instance ref_World : World machine := {|
  errno := w_errno;
  alloc_iovec := alloc;
  uninit_iovec := junk;
  get_fd := descriptor_of;
  os_readv := ref_readv;
  os_writev := ref_writev;
  os_sendfile := ref_sendfile;
  os_sendfile6 := ref_sendfile6;
|}.

(** Two build configurations: a 32-bit Linux target, and a 64-bit host
    without [<sys/sendfile.h>]. *)
Definition linux32 : Config :=
  {| HAVE_SYS_SENDFILE_H := true; word := Int.W32; off := Int.W32 |}.
Definition host64 : Config :=
  {| HAVE_SYS_SENDFILE_H := false; word := Int.W64; off := Int.W64 |}.

(** Memory holding [data] at addresses [a, a + length data). *)
Fixpoint memory_at (a : Z) (data : list byte) : gmap Z byte :=
  match data with
  | [] => ∅
  | b :: rest => <[a := b]> (memory_at (a + 1) rest)
  end.

(** A machine to run examples on: a heap with room for 16 [iovec]s; the
    [FileDescriptor] object 7 holding descriptor 5 and the object 8 holding
    none; the bytes "abcdefgh" at addresses 100..107 and eight mapped bytes
    at 200..207; descriptor 3 open on an empty file and descriptor 5 on a
    file that holds "xyz", positioned at its start. *)
Definition demo_machine : machine :=
  mk_machine 0 16 {[ 7 := 5; 8 := -1 ]}
    (memory_at 100 (list_byte_of_string "abcdefgh")
     ∪ memory_at 200 (list_byte_of_string "........"))
    {[ 3 := mk_File [] 0%nat;
       5 := mk_File (list_byte_of_string "xyz") 0%nat ]}.

Definition demo : State machine := mk_State None [] demo_machine.

(** The same, with an exception already pending. *)
Definition demo_pending : State machine :=
  mk_State (Some (OtherThrowable "java/lang/IllegalStateException"))
           [] demo_machine.



End Ref.

(* ===================================================================== *)
(** ** A scripted world *)
(* ===================================================================== *)

(** A world in which every system call reports the outcome written in the
    state: [reply] as its result and [written_back] as the value it stores
    through its pointer argument (the offset of [sendfile], the [len] of the
    six-argument [sendfile]).  A call leaves [errno] as it was, as a call
    that succeeds does.  Allocation succeeds and a [FileDescriptor] object
    is named by the descriptor it holds.  It serves to run the native code
    against a given outcome of the kernel. *)
Module Script.

Record machine := mk_machine {
  w_errno : Z;
  reply : Z;
  written_back : Z;
}.

#[global] Instance script_World : World machine := {|
  errno := w_errno;
  alloc_iovec := fun _ w => (true, w);
  uninit_iovec := fun _ _ => mk_iovec 0 0;
  get_fd := fun sd _ => sd;
  os_readv := fun _ _ _ w => (reply w, w);
  os_writev := fun _ _ _ w => (reply w, w);
  os_sendfile := fun _ _ _ _ w => ((reply w, written_back w), w);
  os_sendfile6 := fun _ _ _ _ w => ((reply w, written_back w), w);
|}.

(** A 32-bit host without [<sys/sendfile.h>] whose [off_t] has 64 bits. *)
Definition host32 : Config :=
  {| HAVE_SYS_SENDFILE_H := false; word := Int.W32; off := Int.W64 |}.

End Script.

(* ===================================================================== *)
(** ** Machine integers: facts *)
(* ===================================================================== *)

Lemma modulus_pos w : 0 < Int.modulus w.
Proof. destruct w; reflexivity. Qed.

Lemma modulus_twice w : Int.modulus w = 2 * Int.half_modulus w.
Proof. destruct w; reflexivity. Qed.

Lemma modulus_ge_32 w : 2 ^ 32 <= Int.modulus w.
Proof. destruct w; cbv; discriminate. Qed.

Lemma signed_range w x : Int.in_signed w (Int.signed w x).
Proof.
  unfold Int.in_signed, Int.signed.
  pose proof (Z.mod_pos_bound (x + Int.half_modulus w) (Int.modulus w)
                (modulus_pos w)).
  pose proof (modulus_twice w). lia.
Qed.

Lemma signed_id w x : Int.in_signed w x -> Int.signed w x = x.
Proof.
  unfold Int.in_signed, Int.signed. intros Hx.
  pose proof (modulus_twice w).
  rewrite Z.mod_small by lia. lia.
Qed.

Lemma signed_above w x :
  Int.half_modulus w <= x < Int.half_modulus w + Int.modulus w ->
  Int.signed w x = x - Int.modulus w.
Proof.
  unfold Int.signed. intros Hx. pose proof (modulus_twice w).
  replace (x + Int.half_modulus w)
    with ((x + Int.half_modulus w - Int.modulus w) + 1 * Int.modulus w) by lia.
  rewrite Z.mod_add by lia. rewrite Z.mod_small by lia. lia.
Qed.

Lemma signed_below w x :
  - Int.half_modulus w - Int.modulus w <= x < - Int.half_modulus w ->
  Int.signed w x = x + Int.modulus w.
Proof.
  unfold Int.signed. intros Hx. pose proof (modulus_twice w).
  replace (x + Int.half_modulus w)
    with ((x + Int.half_modulus w + Int.modulus w) + (-1) * Int.modulus w)
    by lia.
  rewrite Z.mod_add by lia. rewrite Z.mod_small by lia. lia.
Qed.

Lemma unsigned_id w x : Int.in_unsigned w x -> Int.unsigned w x = x.
Proof. unfold Int.in_unsigned, Int.unsigned. intros. by rewrite Z.mod_small. Qed.

(** A 64-bit [off_t] holds every [jlong]; a 32-bit one does not, which is
    why the bound on [offset] that the Java caller enforces matters. *)
Lemma signed_W64_jlong x : is_jlong x -> Int.signed Int.W64 x = x.
Proof.
  unfold is_jlong. intros Hx. apply signed_id.
  unfold Int.in_signed, Int.half_modulus. simpl. lia.
Qed.

Example signed_W32_truncates : Int.signed Int.W32 (2 ^ 32 + 7) = 7.
Proof. reflexivity. Qed.

Lemma jint_add_exact a b : is_jint (a + b) -> jint_add a b = a + b.
Proof.
  unfold is_jint, jint_min, jint_max, jint_add. intros Hab.
  apply signed_id. unfold Int.in_signed, Int.half_modulus. simpl. lia.
Qed.

Lemma jint_add_is_jint a b : is_jint (jint_add a b).
Proof.
  pose proof (signed_range Int.W32 (a + b)) as Hr.
  unfold Int.in_signed, Int.half_modulus in Hr. simpl in Hr.
  unfold is_jint, jint_min, jint_max, jint_add. lia.
Qed.

(* ===================================================================== *)
(** ** The vector builder *)
(* ===================================================================== *)

Section Builder.

Context `{Config} {W : Type} `{World W}.

(** The entry the loop stores at index [i]. *)
Lemma fill_vectors_spec (buffers offsets lengths : list Z) (n : nat) :
  forall (i : nat) (vectors : list iovec),
    (i + n <= length buffers)%nat ->
    (i + n <= length offsets)%nat ->
    (i + n <= length lengths)%nat ->
    (i + n <= length vectors)%nat ->
    exists out,
      fill_vectors buffers offsets lengths n i vectors = Some out /\
      length out = length vectors /\
      (forall j, (j < i \/ i + n <= j)%nat -> out !! j = vectors !! j) /\
      (forall j b o l,
          (i <= j < i + n)%nat ->
          buffers !! j = Some b -> offsets !! j = Some o ->
          lengths !! j = Some l ->
          out !! j = Some (mk_iovec (void_ptr_of_jint (jint_add b o))
                                    (size_t_of_jint l))).
Proof.
  induction n as [|n IH]; intros i vectors Hb Ho Hl Hv.
  - exists vectors. simpl. split; [reflexivity|]. split; [reflexivity|].
    split; [reflexivity|]. intros j b o l Hj. exfalso. lia.
  - simpl.
    destruct (lookup_lt_is_Some_2 buffers i ltac:(lia)) as [b Eb].
    destruct (lookup_lt_is_Some_2 offsets i ltac:(lia)) as [o Eo].
    destruct (lookup_lt_is_Some_2 lengths i ltac:(lia)) as [l El].
    rewrite Eb, Eo, El.
    set (e := mk_iovec (void_ptr_of_jint (jint_add b o)) (size_t_of_jint l)).
    destruct (IH (S i) (<[i := e]> vectors)) as (out & Hrun & Hlen & Hout & Hin);
      try lia.
    { rewrite length_insert. lia. }
    exists out. rewrite length_insert in Hlen.
    split; [exact Hrun|]. split; [exact Hlen|]. split.
    + intros j Hj. rewrite Hout by lia.
      apply list_lookup_insert_ne. lia.
    + intros j b' o' l' Hj Eb' Eo' El'.
      destruct (decide (j = i)) as [->|Hne].
      * rewrite Hout by lia.
        rewrite list_lookup_insert_eq by lia.
        rewrite Eb in Eb'. rewrite Eo in Eo'. rewrite El in El'.
        by simplify_eq.
      * apply Hin; auto. lia.
Qed.

(** With arrays too short for [size] the loop reads past an end. *)
Lemma fill_vectors_out_of_bounds (buffers offsets lengths : list Z) (n : nat) :
  forall (i : nat) (vectors : list iovec),
    (i <= length buffers)%nat -> (i <= length offsets)%nat ->
    (i <= length lengths)%nat ->
    (length buffers < i + n)%nat \/ (length offsets < i + n)%nat \/
    (length lengths < i + n)%nat ->
    fill_vectors buffers offsets lengths n i vectors = None.
Proof.
  induction n as [|n IH]; intros i vectors Hb Ho Hl Hshort; [lia|].
  simpl.
  destruct (buffers !! i) as [b|] eqn:Eb; [|done].
  destruct (offsets !! i) as [o|] eqn:Eo; [|by destruct (lengths !! i)].
  destruct (lengths !! i) as [l|] eqn:El; [|done].
  apply lookup_lt_Some in Eb, Eo, El.
  apply IH; lia.
Qed.

Lemma initIoVec_alloc_failure jB jO jL size (s : State W) w :
  alloc_iovec size (world s) = (false, w) ->
  initIoVec jB jO jL size s
  = Some (None, mk_State (Some OutOfMemoryError) (calls s) w).
Proof.
  intros Ha. unfold initIoVec, bind, new_iovec. rewrite Ha. reflexivity.
Qed.

Lemma initIoVec_access_failure jB jO jL size (s : State W) w t :
  alloc_iovec size (world s) = (true, w) ->
  first_inaccessible jB jO jL = Some t ->
  initIoVec jB jO jL size s = Some (None, mk_State (Some t) (calls s) w).
Proof.
  intros Ha Ht. unfold initIoVec, bind, new_iovec. rewrite Ha.
  destruct jB as [b|tb]; simpl in *; [|by simplify_eq].
  destruct jO as [o|to]; simpl in *; [|by simplify_eq].
  destruct jL as [l|tl]; simpl in *; [|by simplify_eq].
  discriminate.
Qed.

(** A run that hands back a vector list had its allocation succeed and its
    three arrays accessible, and touched neither the pending exception nor
    the log of system calls. *)
Lemma initIoVec_Some_inv jB jO jL size (s s1 : State W) vectors :
  initIoVec jB jO jL size s = Some (Some vectors, s1) ->
  exists buffers offsets lengths w,
    jB = IntArray buffers /\ jO = IntArray offsets /\ jL = IntArray lengths /\
    alloc_iovec size (world s) = (true, w) /\
    s1 = mk_State (pending s) (calls s) w /\
    fill_vectors buffers offsets lengths (Z.to_nat size) 0
      (map (uninit_iovec w) (seq 0 (Z.to_nat size))) = Some vectors.
Proof.
  unfold initIoVec, bind, new_iovec.
  destruct (alloc_iovec size (world s)) as [[|] w] eqn:Ha; simpl; [|discriminate].
  destruct jB as [b|tb]; simpl; [|discriminate].
  destruct jO as [o|to]; simpl; [|discriminate].
  destruct jL as [l|tl]; simpl; [|discriminate].
  destruct (fill_vectors b o l _ _ _) as [out|] eqn:Hf; simpl; [|discriminate].
  intros [= <- <-]. exists b, o, l, w. repeat split; auto.
Qed.

(** A run that hands back the null pointer issued no system call. *)
Lemma initIoVec_None_inv jB jO jL size (s s1 : State W) :
  initIoVec jB jO jL size s = Some (None, s1) ->
  calls s1 = calls s /\ world s1 = snd (alloc_iovec size (world s)) /\
  exists t, pending s1 = Some t /\
    (if fst (alloc_iovec size (world s))
     then first_inaccessible jB jO jL else Some OutOfMemoryError) = Some t.
Proof.
  unfold initIoVec, bind, new_iovec.
  destruct (alloc_iovec size (world s)) as [[|] w] eqn:Ha; simpl.
  - destruct jB as [b|tb]; simpl; [|intros [= <-]; eauto].
    destruct jO as [o|to]; simpl; [|intros [= <-]; eauto].
    destruct jL as [l|tl]; simpl; [|intros [= <-]; eauto].
    destruct (fill_vectors b o l _ _ _); simpl; discriminate.
  - intros [= <-]. eauto.
Qed.

Lemma initIoVec_success buffers offsets lengths size (s : State W) w :
  alloc_iovec size (world s) = (true, w) ->
  (Z.to_nat size <= length buffers)%nat ->
  (Z.to_nat size <= length offsets)%nat ->
  (Z.to_nat size <= length lengths)%nat ->
  exists vectors,
    initIoVec (IntArray buffers) (IntArray offsets) (IntArray lengths) size s
    = Some (Some vectors, mk_State (pending s) (calls s) w) /\
    length vectors = Z.to_nat size /\
    forall i b o l,
      (i < Z.to_nat size)%nat ->
      buffers !! i = Some b -> offsets !! i = Some o -> lengths !! i = Some l ->
      vectors !! i = Some (mk_iovec (void_ptr_of_jint (jint_add b o))
                                    (size_t_of_jint l)).
Proof.
  intros Ha Hb Ho Hl.
  destruct (fill_vectors_spec buffers offsets lengths (Z.to_nat size) 0
              (map (uninit_iovec w) (seq 0 (Z.to_nat size))))
    as (out & Hrun & Hlen & _ & Hin); simpl; try lia.
  { rewrite length_map, length_seq. lia. }
  exists out. rewrite length_map, length_seq in Hlen.
  split; [|split; [exact Hlen|]].
  - unfold initIoVec, bind, new_iovec. rewrite Ha. simpl.
    rewrite Hrun. reflexivity.
  - intros i b o l Hi. apply Hin. lia.
Qed.

End Builder.

(* ===================================================================== *)
(** ** The entry points *)
(* ===================================================================== *)

Section EntryPoints.

Context `{Config} {W : Type} `{World W}.

(** The check that follows each system call: throw on -1. *)
Lemma throw_on_minus_one_run (rc : Z) (s : State W) :
  (if rc =? -1 then e <- get_errno ;; jniThrowIOException e else ret tt) s
  = Some (tt, mk_State (if rc =? -1 then Some (IOException (errno (world s)))
                        else pending s)
                       (calls s) (world s)).
Proof.
  destruct (rc =? -1); [reflexivity|]. destruct s; reflexivity.
Qed.

Lemma OSFileSystem_readv_run fd jB jO jL size (s s1 : State W) vectors rc w2 :
  initIoVec jB jO jL size s = Some (Some vectors, s1) ->
  os_readv fd vectors size (world s1) = (rc, w2) ->
  OSFileSystem_readv fd jB jO jL size s
  = Some (if rc =? 0 then -1 else rc,
          mk_State (if rc =? -1 then Some (IOException (errno w2))
                    else pending s)
                   (SysReadv fd vectors size :: calls s) w2).
Proof.
  intros Hinit Hos.
  destruct (initIoVec_Some_inv _ _ _ _ _ _ _ Hinit)
    as (b & o & l & w & _ & _ & _ & _ & -> & _).
  unfold OSFileSystem_readv, bind at 1. rewrite Hinit.
  unfold bind at 1, readv, syscall. simpl in *. rewrite Hos.
  destruct (rc =? 0) eqn:E0.
  - apply Z.eqb_eq in E0. subst rc. reflexivity.
  - unfold bind. rewrite throw_on_minus_one_run. reflexivity.
Qed.

Lemma OSFileSystem_writev_run fd jB jO jL size (s s1 : State W) vectors rc w2 :
  initIoVec jB jO jL size s = Some (Some vectors, s1) ->
  os_writev fd vectors size (world s1) = (rc, w2) ->
  OSFileSystem_writev fd jB jO jL size s
  = Some (rc,
          mk_State (if rc =? -1 then Some (IOException (errno w2))
                    else pending s)
                   (SysWritev fd vectors size :: calls s) w2).
Proof.
  intros Hinit Hos.
  destruct (initIoVec_Some_inv _ _ _ _ _ _ _ Hinit)
    as (b & o & l & w & _ & _ & _ & _ & -> & _).
  unfold OSFileSystem_writev, bind at 1. rewrite Hinit.
  unfold bind at 1, writev, syscall. simpl in *. rewrite Hos.
  unfold bind. rewrite throw_on_minus_one_run. reflexivity.
Qed.

Lemma OSFileSystem_readv_null fd jB jO jL size (s s1 : State W) :
  initIoVec jB jO jL size s = Some (None, s1) ->
  OSFileSystem_readv fd jB jO jL size s = Some (-1, s1).
Proof. intros Hinit. unfold OSFileSystem_readv, bind. by rewrite Hinit. Qed.

Lemma OSFileSystem_writev_null fd jB jO jL size (s s1 : State W) :
  initIoVec jB jO jL size s = Some (None, s1) ->
  OSFileSystem_writev fd jB jO jL size s = Some (-1, s1).
Proof. intros Hinit. unfold OSFileSystem_writev, bind. by rewrite Hinit. Qed.

(** The system call [OSFileSystem_transfer] issues for a resolved socket. *)
Lemma OSFileSystem_transfer_linux_run fd sd offset count (s : State W)
      rc off' w2 :
  HAVE_SYS_SENDFILE_H = true ->
  get_fd sd (world s) <> -1 ->
  os_sendfile (get_fd sd (world s)) fd (off_t_of_jlong offset)
              (size_t_of_jlong count) (world s) = ((rc, off'), w2) ->
  OSFileSystem_transfer fd sd offset count s
  = Some (rc,
          mk_State (if rc =? -1 then Some (IOException (errno w2))
                    else pending s)
                   (SysSendfile (get_fd sd (world s)) fd
                                (off_t_of_jlong offset)
                                (size_t_of_jlong count) :: calls s) w2).
Proof.
  intros Hcfg Hsock Hos.
  unfold OSFileSystem_transfer, bind at 1, jniGetFDFromFileDescriptor.
  apply Z.eqb_neq in Hsock. rewrite Hsock.
  unfold sendfile. rewrite Hcfg.
  unfold bind at 1 2, sendfile_linux, syscall. rewrite Hos. simpl.
  unfold bind. rewrite throw_on_minus_one_run. reflexivity.
Qed.

Lemma OSFileSystem_transfer_adapter_run fd sd offset count (s : State W)
      result len' w2 :
  HAVE_SYS_SENDFILE_H = false ->
  get_fd sd (world s) <> -1 ->
  os_sendfile6 fd (get_fd sd (world s)) (off_t_of_jlong offset)
               (off_t_of_size_t (size_t_of_jlong count)) (world s)
  = ((result, len'), w2) ->
  let rc := if result <? 0 then -1 else ssize_t_of_off_t len' in
  OSFileSystem_transfer fd sd offset count s
  = Some (rc,
          mk_State (if rc =? -1 then Some (IOException (errno w2))
                    else pending s)
                   (SysSendfile6 fd (get_fd sd (world s))
                                 (off_t_of_jlong offset)
                                 (off_t_of_size_t (size_t_of_jlong count))
                      :: calls s) w2).
Proof.
  intros Hcfg Hsock Hos rc.
  unfold OSFileSystem_transfer, bind at 1, jniGetFDFromFileDescriptor.
  apply Z.eqb_neq in Hsock. rewrite Hsock.
  unfold sendfile. rewrite Hcfg.
  unfold sendfile_adapter, bind at 1 2, sendfile6, syscall. rewrite Hos.
  subst rc. destruct (result <? 0); simpl.
  - reflexivity.
  - unfold bind. rewrite throw_on_minus_one_run. reflexivity.
Qed.

End EntryPoints.

(* ===================================================================== *)
(** ** The properties of the specification *)
(* ===================================================================== *)

Section Claims.

Context `{Config} {W : Type} `{World W}.

(** C1: When the vector list asks for a non-zero number of bytes and the
    gather-read system call reports end of stream (zero bytes),
    [OSFileSystem_readv] returns -1 (leaving no exception pending that was
    not there before); and no call of [OSFileSystem_readv] whatsoever
    returns 0. *)
Theorem readv_end_of_stream :
  (forall fd jB jO jL size (s s1 : State W) vectors w2,
      initIoVec jB jO jL size s = Some (Some vectors, s1) ->
      total_length vectors <> 0 ->
      os_readv fd vectors size (world s1) = (0, w2) ->
      OSFileSystem_readv fd jB jO jL size s
      = Some (-1, mk_State (pending s)
                           (SysReadv fd vectors size :: calls s) w2))
  /\
  (forall fd jB jO jL size (s s' : State W) r,
      OSFileSystem_readv fd jB jO jL size s = Some (r, s') -> r <> 0).
Proof.
  split.
  - intros fd jB jO jL size s s1 vectors w2 Hinit _ Hos.
    by rewrite (OSFileSystem_readv_run _ _ _ _ _ _ _ _ _ _ Hinit Hos).
  - intros fd jB jO jL size s s' r.
    destruct (initIoVec jB jO jL size s) as [[[vectors|] s1]|] eqn:Hinit.
    + destruct (os_readv fd vectors size (world s1)) as [rc w2] eqn:Hos.
      rewrite (OSFileSystem_readv_run _ _ _ _ _ _ _ _ _ _ Hinit Hos).
      intros [= <- _]. destruct (rc =? 0) eqn:E; [lia|].
      by apply Z.eqb_neq in E.
    + rewrite (OSFileSystem_readv_null _ _ _ _ _ _ _ Hinit).
      intros [= <- _]. lia.
    + unfold OSFileSystem_readv, bind. rewrite Hinit. discriminate.
Qed.

(** The translation of errors where the kernel keeps to its manual pages.
    When the system call behind [OSFileSystem_readv], [OSFileSystem_writev]
    or [OSFileSystem_transfer] gives a negative result, the call ends with
    an [IOException] pending that carries the [errno] of the world as the
    system call left it; with any other result the pending exception is what
    it was before.  The results taken into account are -1 or a byte count
    ([readv], [writev], Linux [sendfile]); for the six-argument [sendfile]
    behind the adapter, a negative [int] or else a byte count in [len] that
    fits [ssize_t].  What the adapter does with a byte count that does not
    fit is shown after this lemma. *)
Theorem negative_result_raises_errno :
  (forall fd jB jO jL size (s s1 : State W) vectors rc w2,
      initIoVec jB jO jL size s = Some (Some vectors, s1) ->
      os_readv fd vectors size (world s1) = (rc, w2) ->
      -1 <= rc ->
      exists r,
        OSFileSystem_readv fd jB jO jL size s
        = Some (r, mk_State (if rc <? 0 then Some (IOException (errno w2))
                             else pending s)
                            (SysReadv fd vectors size :: calls s) w2))
  /\
  (forall fd jB jO jL size (s s1 : State W) vectors rc w2,
      initIoVec jB jO jL size s = Some (Some vectors, s1) ->
      os_writev fd vectors size (world s1) = (rc, w2) ->
      -1 <= rc ->
      exists r,
        OSFileSystem_writev fd jB jO jL size s
        = Some (r, mk_State (if rc <? 0 then Some (IOException (errno w2))
                             else pending s)
                            (SysWritev fd vectors size :: calls s) w2))
  /\
  (forall fd sd offset count (s : State W) rc off' w2,
      HAVE_SYS_SENDFILE_H = true ->
      get_fd sd (world s) <> -1 ->
      os_sendfile (get_fd sd (world s)) fd (off_t_of_jlong offset)
                  (size_t_of_jlong count) (world s) = ((rc, off'), w2) ->
      -1 <= rc ->
      exists r c,
        OSFileSystem_transfer fd sd offset count s
        = Some (r, mk_State (if rc <? 0 then Some (IOException (errno w2))
                             else pending s)
                            (c :: calls s) w2))
  /\
  (forall fd sd offset count (s : State W) result len' w2,
      HAVE_SYS_SENDFILE_H = false ->
      get_fd sd (world s) <> -1 ->
      os_sendfile6 fd (get_fd sd (world s)) (off_t_of_jlong offset)
                   (off_t_of_size_t (size_t_of_jlong count)) (world s)
      = ((result, len'), w2) ->
      (0 <= result -> 0 <= len' < Int.half_modulus word) ->
      exists r c,
        OSFileSystem_transfer fd sd offset count s
        = Some (r, mk_State (if result <? 0
                             then Some (IOException (errno w2))
                             else pending s)
                            (c :: calls s) w2)).
Proof.
  assert (Hsign : forall rc, -1 <= rc -> (rc =? -1) = (rc <? 0)).
  { intros rc Hrc. destruct (Z.eqb_spec rc (-1)), (Z.ltb_spec rc 0); lia. }
  repeat split.
  - intros fd jB jO jL size s s1 vectors rc w2 Hinit Hos Hrc.
    rewrite (OSFileSystem_readv_run _ _ _ _ _ _ _ _ _ _ Hinit Hos).
    rewrite (Hsign rc Hrc). eauto.
  - intros fd jB jO jL size s s1 vectors rc w2 Hinit Hos Hrc.
    rewrite (OSFileSystem_writev_run _ _ _ _ _ _ _ _ _ _ Hinit Hos).
    rewrite (Hsign rc Hrc). eauto.
  - intros fd sd offset count s rc off' w2 Hcfg Hsock Hos Hrc.
    rewrite (OSFileSystem_transfer_linux_run _ _ _ _ _ _ _ _ Hcfg Hsock Hos).
    rewrite (Hsign rc Hrc). eauto.
  - intros fd sd offset count s result len' w2 Hcfg Hsock Hos Hlen.
    rewrite (OSFileSystem_transfer_adapter_run _ _ _ _ _ _ _ _ Hcfg Hsock Hos).
    destruct (Z.ltb_spec result 0) as [Hneg|Hpos].
    + simpl. eauto.
    + specialize (Hlen Hpos).
      assert (Hid : ssize_t_of_off_t len' = len').
      { apply signed_id. unfold Int.in_signed. lia. }
      rewrite Hid.
      destruct (Z.eqb_spec len' (-1)) as [E|E]; [lia|]. eauto.
Qed.

(** C2: A system call that succeeds can still make [OSFileSystem_transfer]
    raise.  On a build without [<sys/sendfile.h>] whose [size_t] has 32 bits
    and whose [off_t] has 64, take [count = 4294967295] and let the
    six-argument [sendfile] succeed (result 0) having sent all 4294967295
    bytes.  The adapter returns [len] as an [ssize_t], which is -1, and
    [OSFileSystem_transfer] takes it for a failure: it returns -1 with an
    [IOException] pending that carries whatever [errno] held, although the
    result of the system call was not negative. *)
Theorem transfer_adapter_raises_on_success fd sd offset (s : State W) w2 :
  HAVE_SYS_SENDFILE_H = false ->
  word = Int.W32 ->
  off = Int.W64 ->
  get_fd sd (world s) <> -1 ->
  os_sendfile6 fd (get_fd sd (world s)) (off_t_of_jlong offset) 4294967295
               (world s)
  = ((0, 4294967295), w2) ->
  OSFileSystem_transfer fd sd offset 4294967295 s
  = Some (-1, mk_State (Some (IOException (errno w2)))
                       (SysSendfile6 fd (get_fd sd (world s))
                                     (off_t_of_jlong offset) 4294967295
                          :: calls s) w2).
Proof.
  intros Hcfg Hword Hoff Hsock Hos.
  assert (Hlen : off_t_of_size_t (size_t_of_jlong 4294967295) = 4294967295).
  { unfold off_t_of_size_t, size_t_of_jlong. rewrite Hword, Hoff.
    reflexivity. }
  assert (Hret : ssize_t_of_off_t 4294967295 = -1).
  { unfold ssize_t_of_off_t. rewrite Hword. reflexivity. }
  assert (Hos' : os_sendfile6 fd (get_fd sd (world s))
                   (off_t_of_jlong offset)
                   (off_t_of_size_t (size_t_of_jlong 4294967295)) (world s)
                 = ((0, 4294967295), w2)) by (by rewrite Hlen).
  pose proof (OSFileSystem_transfer_adapter_run _ _ _ _ _ _ _ _
                Hcfg Hsock Hos') as Hrun.
  cbv zeta in Hrun. change (0 <? 0) with false in Hrun. cbv iota in Hrun.
  rewrite Hret in Hrun. change (-1 =? -1) with true in Hrun.
  cbv iota in Hrun. rewrite Hlen in Hrun. exact Hrun.
Qed.

(** C3: When the destination socket object resolves to no descriptor (-1),
    [OSFileSystem_transfer] returns -1 and leaves the state as it found it:
    no exception is raised and no system call is issued. *)
Theorem transfer_unresolved_socket fd sd offset count (s : State W) :
  get_fd sd (world s) = -1 ->
  OSFileSystem_transfer fd sd offset count s = Some (-1, s).
Proof.
  intros Hsock.
  unfold OSFileSystem_transfer, bind, jniGetFDFromFileDescriptor.
  rewrite Hsock. reflexivity.
Qed.

(** C4: [OSFileSystem_writev] with [size = 0], accessible arrays and a
    successful allocation hands the system call an empty vector list and
    count 0, and when that writes 0 bytes it returns 0 with no exception
    raised; in general a non-negative result of the system call is returned
    as it is, zero included, and no exception is raised. *)
Theorem writev_count_unchanged :
  (forall fd buffers offsets lengths (s : State W) w1 w2,
      alloc_iovec 0 (world s) = (true, w1) ->
      os_writev fd [] 0 w1 = (0, w2) ->
      OSFileSystem_writev fd (IntArray buffers) (IntArray offsets)
                          (IntArray lengths) 0 s
      = Some (0, mk_State (pending s) (SysWritev fd [] 0 :: calls s) w2))
  /\
  (forall fd jB jO jL size (s s1 : State W) vectors rc w2,
      initIoVec jB jO jL size s = Some (Some vectors, s1) ->
      os_writev fd vectors size (world s1) = (rc, w2) ->
      0 <= rc ->
      OSFileSystem_writev fd jB jO jL size s
      = Some (rc, mk_State (pending s)
                           (SysWritev fd vectors size :: calls s) w2)).
Proof.
  split.
  - intros fd buffers offsets lengths s w1 w2 Ha Hos.
    assert (Hinit : initIoVec (IntArray buffers) (IntArray offsets)
                      (IntArray lengths) 0 s
                    = Some (Some [], mk_State (pending s) (calls s) w1)).
    { unfold initIoVec, bind, new_iovec. rewrite Ha. reflexivity. }
    by rewrite (OSFileSystem_writev_run _ _ _ _ _ _ _ _ _ _ Hinit Hos).
  - intros fd jB jO jL size s s1 vectors rc w2 Hinit Hos Hrc.
    rewrite (OSFileSystem_writev_run _ _ _ _ _ _ _ _ _ _ Hinit Hos).
    destruct (Z.eqb_spec rc (-1)); [lia|reflexivity].
Qed.

(** C6: When the vector list cannot be built, because [new iovec[size]]
    yields no array (then [OutOfMemoryError] is raised) or because one of the
    three arrays cannot be accessed (then the failure of the access step
    stays pending as it is), [OSFileSystem_readv] and [OSFileSystem_writev]
    return -1 with that failure pending and the log of system calls as it
    was: no read or write is attempted. *)
Theorem build_failure_returns_minus_one
        fd jB jO jL size (s : State W) ok w t :
  alloc_iovec size (world s) = (ok, w) ->
  (if ok then first_inaccessible jB jO jL else Some OutOfMemoryError)
  = Some t ->
  OSFileSystem_readv fd jB jO jL size s
  = Some (-1, mk_State (Some t) (calls s) w)
  /\
  OSFileSystem_writev fd jB jO jL size s
  = Some (-1, mk_State (Some t) (calls s) w).
Proof.
  intros Ha Ht.
  assert (Hinit : initIoVec jB jO jL size s
                  = Some (None, mk_State (Some t) (calls s) w)).
  { destruct ok.
    - by apply initIoVec_access_failure.
    - injection Ht as <-. by apply initIoVec_alloc_failure. }
  split.
  - by apply OSFileSystem_readv_null.
  - by apply OSFileSystem_writev_null.
Qed.

(** C7: With [0 <= size], a successful allocation and three accessible
    arrays of at least [size] elements, [initIoVec] succeeds with a vector
    list of exactly [size] entries, and entry [i] has the pointer
    [buffers[i] + offsets[i]] (the [int] sum, cast to a pointer) and the
    length [lengths[i]] (converted to [size_t]); these are the plain sum
    when it is a [jint] and the plain length when it is not negative. *)
Theorem initIoVec_entries buffers offsets lengths size (s : State W) w :
  0 <= size ->
  alloc_iovec size (world s) = (true, w) ->
  (Z.to_nat size <= length buffers)%nat ->
  (Z.to_nat size <= length offsets)%nat ->
  (Z.to_nat size <= length lengths)%nat ->
  exists vectors,
    initIoVec (IntArray buffers) (IntArray offsets) (IntArray lengths) size s
    = Some (Some vectors, mk_State (pending s) (calls s) w) /\
    Z.of_nat (length vectors) = size /\
    forall i b o l,
      (i < Z.to_nat size)%nat ->
      buffers !! i = Some b -> offsets !! i = Some o -> lengths !! i = Some l ->
      exists e,
        vectors !! i = Some e /\
        iov_base e = void_ptr_of_jint (jint_add b o) /\
        iov_len e = size_t_of_jint l /\
        (is_jint (b + o) -> iov_base e = b + o) /\
        (0 <= l <= jint_max -> iov_len e = l).
Proof.
  intros Hsize Ha Hb Ho Hl.
  destruct (initIoVec_success buffers offsets lengths size s w Ha Hb Ho Hl)
    as (vectors & Hrun & Hlen & Hent).
  exists vectors. split; [exact Hrun|]. split; [lia|].
  intros i b o l Hi Eb Eo El.
  eexists. split; [by apply Hent|]. simpl.
  split; [reflexivity|]. split; [reflexivity|]. split.
  - intros Hsum. unfold void_ptr_of_jint. by apply jint_add_exact.
  - intros Hl0. apply unsigned_id. unfold Int.in_unsigned.
    pose proof (modulus_ge_32 word). unfold jint_max in Hl0. lia.
Qed.

(** C9: The pointer of entry [i] is the cast of the 32-bit signed sum
    [buffers[i] + offsets[i]]: for [jint] operands whose mathematical sum
    lies outside the 32-bit signed range it is that sum wrapped modulo
    [2^32], and so differs from the sum itself. *)
Theorem initIoVec_base_wraps buffers offsets lengths size (s : State W) w :
  alloc_iovec size (world s) = (true, w) ->
  (Z.to_nat size <= length buffers)%nat ->
  (Z.to_nat size <= length offsets)%nat ->
  (Z.to_nat size <= length lengths)%nat ->
  exists vectors,
    initIoVec (IntArray buffers) (IntArray offsets) (IntArray lengths) size s
    = Some (Some vectors, mk_State (pending s) (calls s) w) /\
    forall i b o l,
      (i < Z.to_nat size)%nat ->
      buffers !! i = Some b -> offsets !! i = Some o -> lengths !! i = Some l ->
      is_jint b -> is_jint o ->
      exists e,
        vectors !! i = Some e /\
        iov_base e = void_ptr_of_jint (Int.signed Int.W32 (b + o)) /\
        is_jint (iov_base e) /\
        (jint_max < b + o -> iov_base e = b + o - 2 ^ 32) /\
        (b + o < jint_min -> iov_base e = b + o + 2 ^ 32) /\
        (~ is_jint (b + o) -> iov_base e <> b + o).
Proof.
  intros Ha Hb Ho Hl.
  destruct (initIoVec_success buffers offsets lengths size s w Ha Hb Ho Hl)
    as (vectors & Hrun & Hlen & Hent).
  exists vectors. split; [exact Hrun|].
  intros i b o l Hi Eb Eo El Jb Jo.
  eexists. split; [by apply Hent|]. simpl.
  assert (Hhi : jint_max < b + o -> jint_add b o = b + o - 2 ^ 32).
  { intros Hover. unfold is_jint, jint_min, jint_max in *.
    unfold jint_add. rewrite signed_above; [reflexivity|].
    unfold Int.half_modulus, Int.modulus. simpl. lia. }
  assert (Hlo : b + o < jint_min -> jint_add b o = b + o + 2 ^ 32).
  { intros Hunder. unfold is_jint, jint_min, jint_max in *.
    unfold jint_add. rewrite signed_below; [reflexivity|].
    unfold Int.half_modulus, Int.modulus. simpl. lia. }
  unfold void_ptr_of_jint.
  split; [reflexivity|]. split; [apply jint_add_is_jint|].
  split; [exact Hhi|]. split; [exact Hlo|].
  intros Hout. unfold is_jint in Hout.
  destruct (Z.lt_ge_cases jint_max (b + o)) as [Hover|Hle].
  - rewrite (Hhi Hover). lia.
  - assert (Hunder : b + o < jint_min) by lia.
    rewrite (Hlo Hunder). lia.
Qed.

(** C8: For an offset within the 32-bit integer range, the conversion of
    the 64-bit [offset] to [off_t] keeps its value, and the offset argument
    of the transfer system call that [OSFileSystem_transfer] issues is
    exactly the caller's [offset]. *)
Theorem transfer_offset_preserved fd sd offset count (s : State W) :
  is_jint offset ->
  get_fd sd (world s) <> -1 ->
  off_t_of_jlong offset = offset /\
  exists r s',
    OSFileSystem_transfer fd sd offset count s = Some (r, s') /\
    calls s' =
    (if HAVE_SYS_SENDFILE_H
     then SysSendfile (get_fd sd (world s)) fd offset (size_t_of_jlong count)
     else SysSendfile6 fd (get_fd sd (world s)) offset
                       (off_t_of_size_t (size_t_of_jlong count)))
      :: calls s.
Proof.
  intros Hoff Hsock.
  assert (Hid : off_t_of_jlong offset = offset).
  { apply signed_id. unfold is_jint, jint_min, jint_max in Hoff.
    unfold Int.in_signed, Int.half_modulus. destruct off; simpl; lia. }
  split; [exact Hid|].
  destruct HAVE_SYS_SENDFILE_H eqn:Hcfg.
  - destruct (os_sendfile (get_fd sd (world s)) fd (off_t_of_jlong offset)
                (size_t_of_jlong count) (world s)) as [[rc off'] w2] eqn:Hos.
    rewrite (OSFileSystem_transfer_linux_run _ _ _ _ _ _ _ _ Hcfg Hsock Hos).
    eexists _, _. split; [reflexivity|]. simpl. by rewrite Hid.
  - destruct (os_sendfile6 fd (get_fd sd (world s)) (off_t_of_jlong offset)
                (off_t_of_size_t (size_t_of_jlong count)) (world s))
      as [[result len'] w2] eqn:Hos.
    rewrite (OSFileSystem_transfer_adapter_run _ _ _ _ _ _ _ _ Hcfg Hsock Hos).
    eexists _, _. split; [reflexivity|]. simpl. by rewrite Hid.
Qed.

(** C10: [OSFileSystem_readv] turns a zero result of the system call into
    -1 whatever was asked for: also with [size = 0], and also when all the
    lengths are zero.  A read that asked for nothing and a read at end of
    stream both return -1 and both leave the pending exception alone, so the
    return value does not tell them apart. *)
Theorem readv_zero_unconditional :
  (forall fd jB jO jL size (s s1 : State W) vectors w2,
      initIoVec jB jO jL size s = Some (Some vectors, s1) ->
      os_readv fd vectors size (world s1) = (0, w2) ->
      OSFileSystem_readv fd jB jO jL size s
      = Some (-1, mk_State (pending s)
                           (SysReadv fd vectors size :: calls s) w2))
  /\
  (forall fd buffers offsets lengths (s : State W) w1 w2,
      alloc_iovec 0 (world s) = (true, w1) ->
      os_readv fd [] 0 w1 = (0, w2) ->
      OSFileSystem_readv fd (IntArray buffers) (IntArray offsets)
                         (IntArray lengths) 0 s
      = Some (-1, mk_State (pending s) (SysReadv fd [] 0 :: calls s) w2))
  /\
  (forall fd jB jO jL size (s s1 : State W) vectors w2
          fd' jB' jO' jL' size' (t t1 : State W) vectors' w2',
      initIoVec jB jO jL size s = Some (Some vectors, s1) ->
      total_length vectors = 0 ->
      os_readv fd vectors size (world s1) = (0, w2) ->
      initIoVec jB' jO' jL' size' t = Some (Some vectors', t1) ->
      total_length vectors' <> 0 ->
      os_readv fd' vectors' size' (world t1) = (0, w2') ->
      exists s2 t2,
        OSFileSystem_readv fd jB jO jL size s = Some (-1, s2) /\
        OSFileSystem_readv fd' jB' jO' jL' size' t = Some (-1, t2) /\
        pending s2 = pending s /\ pending t2 = pending t).
Proof.
  assert (Hzero : forall fd jB jO jL size (s s1 : State W) vectors w2,
      initIoVec jB jO jL size s = Some (Some vectors, s1) ->
      os_readv fd vectors size (world s1) = (0, w2) ->
      OSFileSystem_readv fd jB jO jL size s
      = Some (-1, mk_State (pending s)
                           (SysReadv fd vectors size :: calls s) w2)).
  { intros fd jB jO jL size s s1 vectors w2 Hinit Hos.
    by rewrite (OSFileSystem_readv_run _ _ _ _ _ _ _ _ _ _ Hinit Hos). }
  split; [exact Hzero|]. split.
  - intros fd buffers offsets lengths s w1 w2 Ha Hos.
    apply (Hzero _ _ _ _ _ _ (mk_State (pending s) (calls s) w1)); [|exact Hos].
    unfold initIoVec, bind, new_iovec. rewrite Ha. reflexivity.
  - intros fd jB jO jL size s s1 vectors w2
           fd' jB' jO' jL' size' t t1 vectors' w2'
           Hinit _ Hos Hinit' _ Hos'.
    eexists _, _.
    split; [exact (Hzero _ _ _ _ _ _ _ _ _ Hinit Hos)|].
    split; [exact (Hzero _ _ _ _ _ _ _ _ _ Hinit' Hos')|].
    split; reflexivity.
Qed.

End Claims.

(* ===================================================================== *)
(** ** The vector builder against the list reading *)
(* ===================================================================== *)

Section Marshalling.

Context `{Config} {W : Type} `{World W}.

Lemma iovecs_of_length (n : nat) :
  forall buffers offsets lengths : list Z,
    (n <= length buffers)%nat -> (n <= length offsets)%nat ->
    (n <= length lengths)%nat ->
    length (iovecs_of buffers offsets lengths n) = n.
Proof.
  induction n as [|n IH]; intros [|b bs] [|o os] [|l ls]; simpl;
    intros Hb Ho Hl; try lia.
  rewrite IH; lia.
Qed.

Lemma iovecs_of_lookup (n : nat) :
  forall (buffers offsets lengths : list Z) i b o l,
    (i < n)%nat ->
    buffers !! i = Some b -> offsets !! i = Some o -> lengths !! i = Some l ->
    iovecs_of buffers offsets lengths n !! i
    = Some (mk_iovec (void_ptr_of_jint (jint_add b o)) (size_t_of_jint l)).
Proof.
  induction n as [|n IH]; intros [|b' bs] [|o' os] [|l' ls] i b o l Hi;
    simpl; try lia; try discriminate.
  destruct i as [|i]; simpl.
  - by intros [= ->] [= ->] [= ->].
  - apply IH. lia.
Qed.



(** The loop of [initIoVec] builds the list reading, whatever the fresh
    array held. *)
Lemma initIoVec_iovecs_of buffers offsets lengths size (s : State W) w :
  alloc_iovec size (world s) = (true, w) ->
  (Z.to_nat size <= length buffers)%nat ->
  (Z.to_nat size <= length offsets)%nat ->
  (Z.to_nat size <= length lengths)%nat ->
  initIoVec (IntArray buffers) (IntArray offsets) (IntArray lengths) size s
  = Some (Some (iovecs_of buffers offsets lengths (Z.to_nat size)),
          mk_State (pending s) (calls s) w).
Proof.
  intros Ha Hb Ho Hl.
  destruct (initIoVec_success buffers offsets lengths size s w Ha Hb Ho Hl)
    as (vectors & Hrun & Hlen & Hent).
  rewrite Hrun. do 3 f_equal.
  apply list_eq. intros i.
  destruct (decide (i < Z.to_nat size)%nat) as [Hi|Hi].
  - destruct (lookup_lt_is_Some_2 buffers i ltac:(lia)) as [b Eb].
    destruct (lookup_lt_is_Some_2 offsets i ltac:(lia)) as [o Eo].
    destruct (lookup_lt_is_Some_2 lengths i ltac:(lia)) as [l El].
    rewrite (Hent i b o l Hi Eb Eo El).
    symmetry. by apply iovecs_of_lookup.
  - rewrite (lookup_ge_None_2 vectors) by lia.
    symmetry. apply lookup_ge_None_2.
    rewrite iovecs_of_length; lia.
Qed.

End Marshalling.

(* ===================================================================== *)
(** ** The reference world: memory, gather and scatter *)
(* ===================================================================== *)

Module RefFacts.
Import Ref.



















End RefFacts.

(* ===================================================================== *)
(** ** Writing and reading back in the reference world *)
(* ===================================================================== *)

Section RoundTrip.

Context `{Config}.
Import Ref RefFacts.







End RoundTrip.

(* ===================================================================== *)
(** ** The properties at work on the reference machine *)
(* ===================================================================== *)

Section Examples.

Import Ref.
Local Existing Instance linux32.

Local Abbreviation two_buffers :=
  [mk_iovec 200 3; mk_iovec 203 5] (only parsing).

Local Abbreviation after_EBADF :=
  (snd (fail tt EBADF demo_machine)) (only parsing).

(** Reading 3 + 5 bytes from the empty file on descriptor 3. *)
Lemma readv_end_of_stream_witness :
  OSFileSystem_readv 3 (IntArray [200; 203]) (IntArray [0; 0])
                     (IntArray [3; 5]) 2 demo
  = Some (-1, mk_State None [SysReadv 3 two_buffers 2] demo_machine)
  /\
  forall s', OSFileSystem_readv 3 (IntArray [200; 203]) (IntArray [0; 0])
                                (IntArray [3; 5]) 2 demo <> Some (0, s').
Proof.
  split.
  - apply (proj1 readv_end_of_stream 3 _ _ _ 2 demo demo two_buffers).
    + reflexivity.
    + vm_compute. discriminate.
    + vm_compute. reflexivity.
  - intros s' Hrun.
    by apply (proj2 readv_end_of_stream _ _ _ _ _ _ _ _ Hrun).
Defined.

Lemma negative_result_raises_errno_witness :
  (exists r,
      OSFileSystem_readv 4 (IntArray [200; 203]) (IntArray [0; 0])
                         (IntArray [3; 5]) 2 demo
      = Some (r, mk_State (Some (IOException EBADF))
                          [SysReadv 4 two_buffers 2]
                          after_EBADF))
  /\
  (exists r,
      OSFileSystem_writev 4 (IntArray [200; 203]) (IntArray [0; 0])
                          (IntArray [3; 5]) 2 demo
      = Some (r, mk_State (Some (IOException EBADF))
                          [SysWritev 4 two_buffers 2]
                          after_EBADF))
  /\
  (exists r c,
      OSFileSystem_transfer 4 7 1 2 demo
      = Some (r, mk_State (Some (IOException EBADF)) [c]
                          after_EBADF))
  /\
  (exists r c,
      @OSFileSystem_transfer host64 _ _ 4 7 1 2 demo
      = Some (r, mk_State (Some (IOException EBADF)) [c]
                          after_EBADF)).
Proof.
  pose proof (@negative_result_raises_errno linux32 machine ref_World)
    as (Hreadv & Hwritev & Hlinux & _).
  pose proof (@negative_result_raises_errno host64 machine ref_World)
    as (_ & _ & _ & Hadapter).
  repeat split.
  - apply (Hreadv 4 _ _ _ 2 demo demo two_buffers (-1) after_EBADF).
    + reflexivity.
    + vm_compute. reflexivity.
    + lia.
  - apply (Hwritev 4 _ _ _ 2 demo demo two_buffers (-1) after_EBADF).
    + reflexivity.
    + vm_compute. reflexivity.
    + lia.
  - apply (Hlinux 4 7 1 2 demo (-1) 1 after_EBADF).
    + reflexivity.
    + vm_compute. discriminate.
    + vm_compute. reflexivity.
    + lia.
  - apply (Hadapter 4 7 1 2 demo (-1) 0 after_EBADF).
    + reflexivity.
    + vm_compute. discriminate.
    + vm_compute. reflexivity.
    + intros Hneg. exfalso. lia.
Defined.

(** The kernel reports success with all 4294967295 bytes sent, [errno]
    still holding 5 from before. *)
Lemma transfer_adapter_raises_on_success_witness :
  @OSFileSystem_transfer Script.host32 _ _ 3 5 0 4294967295
    (mk_State None [] (Script.mk_machine 5 0 4294967295))
  = Some (-1, mk_State (Some (IOException 5))
                       [SysSendfile6 3 5 0 4294967295]
                       (Script.mk_machine 5 0 4294967295)).
Proof.
  assert (Hsocket : get_fd 5 (world (mk_State None []
                      (Script.mk_machine 5 0 4294967295))) <> -1)
    by (vm_compute; discriminate).
  exact (@transfer_adapter_raises_on_success Script.host32 _ _ 3 5 0
           (mk_State None [] (Script.mk_machine 5 0 4294967295))
           (Script.mk_machine 5 0 4294967295)
           eq_refl eq_refl eq_refl Hsocket eq_refl).
Defined.

(** The object 8 holds no descriptor. *)
Lemma transfer_unresolved_socket_witness :
  OSFileSystem_transfer 5 8 0 3 demo = Some (-1, demo).
Proof. apply transfer_unresolved_socket. reflexivity. Defined.

Lemma writev_count_unchanged_witness :
  OSFileSystem_writev 3 (IntArray []) (IntArray []) (IntArray []) 0 demo
  = Some (0, mk_State None [SysWritev 3 [] 0] demo_machine)
  /\
  OSFileSystem_writev 3 (IntArray [100; 103]) (IntArray [0; 0])
                      (IntArray [3; 5]) 2 demo
  = Some (8, mk_State None
                      [SysWritev 3 [mk_iovec 100 3; mk_iovec 103 5] 2]
                      (snd (ref_writev 3 [mk_iovec 100 3; mk_iovec 103 5] 2
                                       demo_machine))).
Proof.
  split.
  - apply (proj1 writev_count_unchanged 3 [] [] [] demo demo_machine).
    + reflexivity.
    + vm_compute. reflexivity.
  - apply (proj2 writev_count_unchanged 3 _ _ _ 2 demo demo
                 [mk_iovec 100 3; mk_iovec 103 5] 8).
    + reflexivity.
    + vm_compute. reflexivity.
    + lia.
Defined.

(** An array of 17 entries does not fit the heap; and an array that cannot
    be pinned. *)
Lemma build_failure_returns_minus_one_witness :
  (OSFileSystem_readv 3 (IntArray [200]) (IntArray [0]) (IntArray [3]) 17 demo
   = Some (-1, mk_State (Some OutOfMemoryError) [] demo_machine)
   /\
   OSFileSystem_writev 3 (IntArray [200]) (IntArray [0]) (IntArray [3]) 17 demo
   = Some (-1, mk_State (Some OutOfMemoryError) [] demo_machine))
  /\
  (OSFileSystem_readv 3 (IntArray [200])
                      (Inaccessible (OtherThrowable "java/lang/Error"))
                      (IntArray [3]) 1 demo
   = Some (-1, mk_State (Some (OtherThrowable "java/lang/Error")) []
                        demo_machine)
   /\
   OSFileSystem_writev 3 (IntArray [200])
                       (Inaccessible (OtherThrowable "java/lang/Error"))
                       (IntArray [3]) 1 demo
   = Some (-1, mk_State (Some (OtherThrowable "java/lang/Error")) []
                        demo_machine)).
Proof.
  split.
  - apply (build_failure_returns_minus_one 3 _ _ _ 17 demo false);
      reflexivity.
  - apply (build_failure_returns_minus_one 3 _ _ _ 1 demo true);
      reflexivity.
Defined.

Lemma initIoVec_entries_witness :
  exists vectors,
    initIoVec (IntArray [100; 50]) (IntArray [0; 53]) (IntArray [3; 5]) 2 demo
    = Some (Some vectors, demo) /\
    Z.of_nat (length vectors) = 2 /\
    forall i b o l,
      (i < 2)%nat ->
      [100; 50] !! i = Some b -> [0; 53] !! i = Some o ->
      [3; 5] !! i = Some l ->
      exists e,
        vectors !! i = Some e /\
        iov_base e = void_ptr_of_jint (jint_add b o) /\
        iov_len e = size_t_of_jint l /\
        (is_jint (b + o) -> iov_base e = b + o) /\
        (0 <= l <= jint_max -> iov_len e = l).
Proof.
  apply (initIoVec_entries [100; 50] [0; 53] [3; 5] 2 demo demo_machine).
  - lia.
  - reflexivity.
  - simpl. lia.
  - simpl. lia.
  - simpl. lia.
Defined.

(** [0x7fffffff + 1] wraps to [-0x80000000]. *)
Lemma initIoVec_base_wraps_witness :
  exists vectors,
    initIoVec (IntArray [2147483647]) (IntArray [1]) (IntArray [4]) 1 demo
    = Some (Some vectors, demo) /\
    forall i b o l,
      (i < 1)%nat ->
      [2147483647] !! i = Some b -> [1] !! i = Some o ->
      [4] !! i = Some l ->
      is_jint b -> is_jint o ->
      exists e,
        vectors !! i = Some e /\
        iov_base e = void_ptr_of_jint (Int.signed Int.W32 (b + o)) /\
        is_jint (iov_base e) /\
        (jint_max < b + o -> iov_base e = b + o - 2 ^ 32) /\
        (b + o < jint_min -> iov_base e = b + o + 2 ^ 32) /\
        (~ is_jint (b + o) -> iov_base e <> b + o).
Proof.
  apply (initIoVec_base_wraps [2147483647] [1] [4] 1 demo demo_machine).
  - reflexivity.
  - simpl. lia.
  - simpl. lia.
  - simpl. lia.
Defined.

Lemma transfer_offset_preserved_witness :
  off_t_of_jlong 1 = 1 /\
  exists r s',
    OSFileSystem_transfer 5 7 1 2 demo = Some (r, s') /\
    calls s' = [SysSendfile 5 5 1 2].
Proof.
  assert (Hoffset : is_jint 1)
    by (unfold is_jint, jint_min, jint_max; lia).
  assert (Hsocket : get_fd 7 (world demo) <> -1)
    by (vm_compute; discriminate).
  exact (transfer_offset_preserved 5 7 1 2 demo Hoffset Hsocket).
Defined.

(** Asking descriptor 5, which has three bytes to give, for 0 + 0 bytes, and
    asking descriptor 3, which is at its end, for 3 + 5 bytes. *)
Lemma readv_zero_unconditional_witness :
  OSFileSystem_readv 5 (IntArray []) (IntArray []) (IntArray []) 0 demo
  = Some (-1, mk_State None [SysReadv 5 [] 0] demo_machine)
  /\
  exists s2 t2,
    OSFileSystem_readv 5 (IntArray [200; 203]) (IntArray [0; 0])
                       (IntArray [0; 0]) 2 demo_pending
    = Some (-1, s2) /\
    OSFileSystem_readv 3 (IntArray [200; 203]) (IntArray [0; 0])
                       (IntArray [3; 5]) 2 demo
    = Some (-1, t2) /\
    pending s2 = pending demo_pending /\ pending t2 = pending demo.
Proof.
  destruct (@readv_zero_unconditional linux32 machine ref_World)
    as (_ & Hcount & Hsame).
  split.
  - apply (Hcount 5 [] [] [] demo demo_machine).
    + reflexivity.
    + vm_compute. reflexivity.
  - apply (Hsame 5 _ _ _ 2 demo_pending demo_pending
                 [mk_iovec 200 0; mk_iovec 203 0] demo_machine
                 3 _ _ _ 2 demo demo two_buffers demo_machine).
    + reflexivity.
    + reflexivity.
    + vm_compute. reflexivity.
    + reflexivity.
    + vm_compute. discriminate.
    + vm_compute. reflexivity.
Defined.



End Examples.

(* ===================================================================== *)
(** ** Further properties of the vector builder *)
(* ===================================================================== *)

Section BuilderProperties.

Context `{Config} {W : Type} `{World W}.

(** With its allocation done and the three arrays open, [initIoVec] is the
    loop and nothing else. *)
Lemma initIoVec_accessible_run buffers offsets lengths size (s : State W) w :
  alloc_iovec size (world s) = (true, w) ->
  initIoVec (IntArray buffers) (IntArray offsets) (IntArray lengths) size s
  = match fill_vectors buffers offsets lengths (Z.to_nat size) 0
            (map (uninit_iovec w) (seq 0 (Z.to_nat size))) with
    | Some vectors => Some (Some vectors, mk_State (pending s) (calls s) w)
    | None => None
    end.
Proof.
  intros Ha. unfold initIoVec, bind, new_iovec. rewrite Ha. simpl.
  by destruct (fill_vectors _ _ _ _ _ _).
Qed.

Lemma size_t_of_negative_jint l :
  is_jint l -> l < 0 -> size_t_of_jint l = l + Int.modulus word.
Proof.
  unfold is_jint, jint_min. intros Hl Hneg.
  pose proof (modulus_ge_32 word) as Hm.
  unfold size_t_of_jint, Int.unsigned.
  replace l with ((l + Int.modulus word) + (-1) * Int.modulus word) at 1
    by lia.
  rewrite Z.mod_add by lia. apply Z.mod_small. lia.
Qed.

Lemma size_t_of_length l :
  0 <= l <= jint_max -> size_t_of_jint l = l.
Proof.
  unfold jint_max. intros Hl. pose proof (modulus_ge_32 word).
  apply unsigned_id. unfold Int.in_unsigned. lia.
Qed.

Lemma iovecs_of_total_length (n : nat) :
  forall buffers offsets lengths : list Z,
    (n <= length buffers)%nat -> (n <= length offsets)%nat ->
    Forall (fun l => 0 <= l <= jint_max) (take n lengths) ->
    total_length (iovecs_of buffers offsets lengths n)
    = foldr Z.add 0 (take n lengths).
Proof.
  induction n as [|n IH]; intros [|b bs] [|o os] [|l ls]; simpl;
    intros Hb Ho Hl; try lia; try reflexivity.
  inversion Hl as [|? ? Hl0 Hls]; subst.
  unfold total_length in *. simpl.
  rewrite (size_t_of_length l Hl0). f_equal. apply IH; auto; lia.
Qed.

(** A defined outcome means that no array was read past its end. *)
Lemma initIoVec_defined_lengths buffers offsets lengths size (s : State W) w :
  alloc_iovec size (world s) = (true, w) ->
  initIoVec (IntArray buffers) (IntArray offsets) (IntArray lengths) size s
  <> None ->
  (Z.to_nat size <= length buffers /\ Z.to_nat size <= length offsets /\
   Z.to_nat size <= length lengths)%nat.
Proof.
  intros Ha. rewrite (initIoVec_accessible_run _ _ _ _ _ _ Ha). intros Hdef.
  destruct (decide (Z.to_nat size <= length buffers)%nat) as [Hb|Hb];
    [destruct (decide (Z.to_nat size <= length offsets)%nat) as [Ho|Ho];
     [destruct (decide (Z.to_nat size <= length lengths)%nat) as [Hl|Hl];
      [auto|]|]|];
    exfalso; apply Hdef;
    rewrite fill_vectors_out_of_bounds; auto; lia.
Qed.

(** X1: [initIoVec] does not check the arrays against [size].  Once the
    allocation has succeeded and the three arrays are open, the call has a
    defined outcome exactly when each array has at least [size] elements
    (any arrays will do for [size <= 0]); with a shorter array the loop
    reads past its end. *)
Theorem initIoVec_defined_iff buffers offsets lengths size (s : State W) w :
  alloc_iovec size (world s) = (true, w) ->
  initIoVec (IntArray buffers) (IntArray offsets) (IntArray lengths) size s
  <> None
  <->
  (Z.to_nat size <= length buffers /\ Z.to_nat size <= length offsets /\
   Z.to_nat size <= length lengths)%nat.
Proof.
  intros Ha. split.
  - by apply (initIoVec_defined_lengths _ _ _ _ _ w).
  - rewrite (initIoVec_accessible_run _ _ _ _ _ _ Ha).
    intros (Hb & Ho & Hl).
    destruct (fill_vectors_spec buffers offsets lengths (Z.to_nat size) 0
                (map (uninit_iovec w) (seq 0 (Z.to_nat size))))
      as (out & Hrun & _); simpl; try lia.
    { rewrite length_map, length_seq. lia. }
    rewrite Hrun. discriminate.
Qed.

(** X2: Whatever the state of the world and whatever the fresh array held,
    a vector list handed back by [initIoVec] is the list reading of the
    three arrays: [size] entries (none for [size <= 0]), entry [i] built
    from [buffers[i]], [offsets[i]] and [lengths[i]] alone. *)
Theorem initIoVec_builds_iovecs_of jB jO jL size (s s1 : State W) vectors :
  initIoVec jB jO jL size s = Some (Some vectors, s1) ->
  exists buffers offsets lengths,
    jB = IntArray buffers /\ jO = IntArray offsets /\ jL = IntArray lengths /\
    vectors = iovecs_of buffers offsets lengths (Z.to_nat size) /\
    length vectors = Z.to_nat size.
Proof.
  intros Hinit.
  destruct (initIoVec_Some_inv _ _ _ _ _ _ _ Hinit)
    as (b & o & l & w & -> & -> & -> & Ha & -> & Hfill).
  assert (Hdef : initIoVec (IntArray b) (IntArray o) (IntArray l) size s
                 <> None) by (rewrite Hinit; discriminate).
  destruct (initIoVec_defined_lengths _ _ _ _ _ _ Ha Hdef) as (Hb & Ho & Hl).
  rewrite (initIoVec_iovecs_of b o l size s w Ha Hb Ho Hl) in Hinit.
  injection Hinit as <-.
  exists b, o, l. repeat split; auto. by apply iovecs_of_length.
Qed.

(** X3: [initIoVec] does not reject a negative length.  For a negative
    [jint] at [lengths[i]] the entry asks for [lengths[i] + 2^w] bytes, [w]
    the width of [size_t]: more than any [jint]. *)
Theorem initIoVec_negative_length
        buffers offsets lengths size (s : State W) w i l :
  alloc_iovec size (world s) = (true, w) ->
  (Z.to_nat size <= length buffers)%nat ->
  (Z.to_nat size <= length offsets)%nat ->
  (Z.to_nat size <= length lengths)%nat ->
  (i < Z.to_nat size)%nat ->
  lengths !! i = Some l -> is_jint l -> l < 0 ->
  exists vectors e,
    initIoVec (IntArray buffers) (IntArray offsets) (IntArray lengths) size s
    = Some (Some vectors, mk_State (pending s) (calls s) w) /\
    vectors !! i = Some e /\
    iov_len e = l + Int.modulus word /\
    jint_max < iov_len e.
Proof.
  intros Ha Hb Ho Hl Hi El Jl Hneg.
  destruct (initIoVec_success buffers offsets lengths size s w Ha Hb Ho Hl)
    as (vectors & Hrun & _ & Hent).
  destruct (lookup_lt_is_Some_2 buffers i ltac:(lia)) as [b Eb].
  destruct (lookup_lt_is_Some_2 offsets i ltac:(lia)) as [o Eo].
  eexists vectors, _. split; [exact Hrun|].
  split; [exact (Hent i b o l Hi Eb Eo El)|]. simpl.
  rewrite (size_t_of_negative_jint l Jl Hneg).
  split; [reflexivity|].
  pose proof (modulus_ge_32 word).
  unfold is_jint, jint_min, jint_max in *. lia.
Qed.

(** X4: When the first [size] lengths are not negative, the number of bytes
    the vector list asks the kernel for is their sum. *)
Theorem initIoVec_total_length buffers offsets lengths size (s : State W) w :
  alloc_iovec size (world s) = (true, w) ->
  (Z.to_nat size <= length buffers)%nat ->
  (Z.to_nat size <= length offsets)%nat ->
  (Z.to_nat size <= length lengths)%nat ->
  Forall (fun l => 0 <= l <= jint_max) (take (Z.to_nat size) lengths) ->
  exists vectors,
    initIoVec (IntArray buffers) (IntArray offsets) (IntArray lengths) size s
    = Some (Some vectors, mk_State (pending s) (calls s) w) /\
    total_length vectors = foldr Z.add 0 (take (Z.to_nat size) lengths).
Proof.
  intros Ha Hb Ho Hl Hpos.
  eexists. split; [by apply initIoVec_iovecs_of|].
  by apply iovecs_of_total_length.
Qed.

End BuilderProperties.

(* ===================================================================== *)
(** ** Further properties of the entry points *)
(* ===================================================================== *)

Section EntryPointProperties.

Context `{Config} {W : Type} `{World W}.

(** A [w]-bit signed conversion changes a value by a multiple of [2^w]. *)
Lemma signed_congruent w x : (Int.signed w x - x) mod Int.modulus w = 0.
Proof.
  unfold Int.signed. pose proof (modulus_pos w) as Hm.
  rewrite (Z.mod_eq (x + Int.half_modulus w) (Int.modulus w)) by lia.
  replace (x + Int.half_modulus w
           - Int.modulus w * ((x + Int.half_modulus w) / Int.modulus w)
           - Int.half_modulus w - x)
    with (- ((x + Int.half_modulus w) / Int.modulus w) * Int.modulus w)
    by lia.
  apply Z.mod_mul. lia.
Qed.

Lemma OSFileSystem_transfer_unresolved_run fd sd offset count (s : State W) :
  get_fd sd (world s) = -1 ->
  OSFileSystem_transfer fd sd offset count s = Some (-1, s).
Proof.
  intros Hsock.
  unfold OSFileSystem_transfer, bind, jniGetFDFromFileDescriptor.
  by rewrite Hsock.
Qed.

(** X5: A positive result of [readv(2)], a short read included, is what
    [OSFileSystem_readv] returns: nothing is raised and nothing is retried,
    the one system call made being [readv] with the caller's descriptor and
    count. *)
Theorem readv_count_returned fd jB jO jL size (s s1 : State W) vectors rc w2 :
  initIoVec jB jO jL size s = Some (Some vectors, s1) ->
  os_readv fd vectors size (world s1) = (rc, w2) ->
  0 < rc ->
  OSFileSystem_readv fd jB jO jL size s
  = Some (rc, mk_State (pending s) (SysReadv fd vectors size :: calls s) w2).
Proof.
  intros Hinit Hos Hrc.
  rewrite (OSFileSystem_readv_run _ _ _ _ _ _ _ _ _ _ Hinit Hos).
  destruct (Z.eqb_spec rc 0); [lia|].
  destruct (Z.eqb_spec rc (-1)); [lia|]. reflexivity.
Qed.

(** X6: [OSFileSystem_writev] never returns -1 silently: whenever it returns
    -1 an exception is pending afterwards (the failure of building the
    vector list, or the [IOException] for the failed write). *)
Theorem writev_minus_one_raises fd jB jO jL size (s s' : State W) :
  OSFileSystem_writev fd jB jO jL size s = Some (-1, s') ->
  exists t, pending s' = Some t.
Proof.
  destruct (initIoVec jB jO jL size s) as [[[vectors|] s1]|] eqn:Hinit.
  - destruct (os_writev fd vectors size (world s1)) as [rc w2] eqn:Hos.
    rewrite (OSFileSystem_writev_run _ _ _ _ _ _ _ _ _ _ Hinit Hos).
    intros [= -> <-]. simpl. eauto.
  - rewrite (OSFileSystem_writev_null _ _ _ _ _ _ _ Hinit).
    intros [= <-].
    destruct (initIoVec_None_inv _ _ _ _ _ _ Hinit) as (_ & _ & t & Ht & _).
    eauto.
  - unfold OSFileSystem_writev, bind. rewrite Hinit. discriminate.
Qed.

(** X7: With [<sys/sendfile.h>], [OSFileSystem_transfer] returns a
    non-negative result of [sendfile] as it is and raises nothing; zero
    stays zero (it is not turned into -1 as in [OSFileSystem_readv]), and
    the offset that [sendfile] wrote back is dropped. *)
Theorem transfer_count_returned fd sd offset count (s : State W) rc off' w2 :
  HAVE_SYS_SENDFILE_H = true ->
  get_fd sd (world s) <> -1 ->
  os_sendfile (get_fd sd (world s)) fd (off_t_of_jlong offset)
              (size_t_of_jlong count) (world s) = ((rc, off'), w2) ->
  0 <= rc ->
  OSFileSystem_transfer fd sd offset count s
  = Some (rc, mk_State (pending s)
                       (SysSendfile (get_fd sd (world s)) fd
                                    (off_t_of_jlong offset)
                                    (size_t_of_jlong count) :: calls s) w2).
Proof.
  intros Hcfg Hsock Hos Hrc.
  rewrite (OSFileSystem_transfer_linux_run _ _ _ _ _ _ _ _ Hcfg Hsock Hos).
  destruct (Z.eqb_spec rc (-1)); [lia|]. reflexivity.
Qed.

(** X8: Without [<sys/sendfile.h>] the adapter decides the result of
    [OSFileSystem_transfer].  For any negative result of the six-argument
    [sendfile] the call returns -1 with [IOException(errno)] pending,
    whatever number of bytes [len] reports as sent; otherwise it returns the
    byte count left in [len], not the [int] result. *)
Theorem transfer_adapter_result
        fd sd offset count (s : State W) result len' w2 :
  HAVE_SYS_SENDFILE_H = false ->
  get_fd sd (world s) <> -1 ->
  os_sendfile6 fd (get_fd sd (world s)) (off_t_of_jlong offset)
               (off_t_of_size_t (size_t_of_jlong count)) (world s)
  = ((result, len'), w2) ->
  let call := SysSendfile6 fd (get_fd sd (world s)) (off_t_of_jlong offset)
                           (off_t_of_size_t (size_t_of_jlong count)) in
  (result < 0 ->
   OSFileSystem_transfer fd sd offset count s
   = Some (-1, mk_State (Some (IOException (errno w2)))
                        (call :: calls s) w2))
  /\
  (0 <= result -> 0 <= len' < Int.half_modulus word ->
   OSFileSystem_transfer fd sd offset count s
   = Some (len', mk_State (pending s) (call :: calls s) w2)).
Proof.
  intros Hcfg Hsock Hos call.
  pose proof (OSFileSystem_transfer_adapter_run _ _ _ _ _ _ _ _
                Hcfg Hsock Hos) as Hrun.
  simpl in Hrun. split.
  - intros Hneg. rewrite Hrun.
    destruct (Z.ltb_spec result 0); [reflexivity|lia].
  - intros Hpos Hlen. rewrite Hrun.
    destruct (Z.ltb_spec result 0); [lia|].
    assert (Hid : ssize_t_of_off_t len' = len').
    { apply signed_id. unfold Int.in_signed. lia. }
    rewrite Hid. destruct (Z.eqb_spec len' (-1)); [lia|]. reflexivity.
Qed.

(** An unsigned conversion changes a value by a multiple of the modulus. *)
Lemma unsigned_congruent w x : (Int.unsigned w x - x) mod Int.modulus w = 0.
Proof.
  unfold Int.unsigned. pose proof (modulus_pos w) as Hm.
  rewrite (Z.mod_eq x (Int.modulus w)) by lia.
  replace (x - Int.modulus w * (x / Int.modulus w) - x)
    with (- (x / Int.modulus w) * Int.modulus w) by lia.
  apply Z.mod_mul. lia.
Qed.

(** A multiple of the modulus of either width is a multiple of [2^32]. *)
Lemma congruent_mod_32 w x : x mod Int.modulus w = 0 -> x mod 2 ^ 32 = 0.
Proof.
  pose proof (modulus_pos w) as Hm. intros Hx.
  apply Z.mod_divide in Hx; [|lia].
  apply Z.mod_divide; [lia|].
  apply (Z.divide_trans _ (Int.modulus w)); [|exact Hx].
  destruct w; [exists 1|exists (2 ^ 32)]; reflexivity.
Qed.

(** X9: [OSFileSystem_transfer] does not validate [count]: whatever its
    value, the system call is made once the socket resolves, with [count]
    converted.  In either build the value passed is congruent to [count]
    modulo [2^32], and is [count] itself when [0 <= count] fits [size_t] and
    [off_t].  With [<sys/sendfile.h>] it is [count] as a [size_t]: a count
    that fits is passed as it is, a negative count as a non-negative
    request, and a count of [2^w] or more ([w] the width of [size_t]) as a
    smaller one.  Without, it is the [len] of the adapter, [count] as a
    [size_t] and then as an [off_t], which can be negative. *)
Theorem transfer_count_converted fd sd offset count (s : State W) :
  get_fd sd (world s) <> -1 ->
  exists r s' a,
    OSFileSystem_transfer fd sd offset count s = Some (r, s') /\
    calls s' =
    (if HAVE_SYS_SENDFILE_H
     then SysSendfile (get_fd sd (world s)) fd (off_t_of_jlong offset) a
     else SysSendfile6 fd (get_fd sd (world s)) (off_t_of_jlong offset) a)
      :: calls s /\
    (a - count) mod 2 ^ 32 = 0 /\
    (0 <= count < Int.modulus word -> count < Int.half_modulus off ->
     a = count) /\
    (HAVE_SYS_SENDFILE_H = true ->
     a = Int.unsigned word count /\
     0 <= a < Int.modulus word /\
     (a - count) mod Int.modulus word = 0 /\
     (0 <= count < Int.modulus word -> a = count) /\
     (count < 0 -> count < a) /\
     (Int.modulus word <= count -> a < count)) /\
    (HAVE_SYS_SENDFILE_H = false ->
     a = Int.signed off (Int.unsigned word count) /\
     Int.in_signed off a).
Proof.
  intros Hsock.
  pose proof (modulus_pos word) as Hm.
  pose proof (Z.mod_pos_bound count (Int.modulus word) Hm) as Hbound.
  pose proof (unsigned_congruent word count) as Hcong.
  destruct HAVE_SYS_SENDFILE_H eqn:Hcfg.
  - destruct (os_sendfile (get_fd sd (world s)) fd (off_t_of_jlong offset)
                (size_t_of_jlong count) (world s)) as [[rc off'] w2] eqn:Hos.
    rewrite (OSFileSystem_transfer_linux_run _ _ _ _ _ _ _ _ Hcfg Hsock Hos).
    eexists _, _, (size_t_of_jlong count).
    split; [reflexivity|]. split; [reflexivity|].
    unfold size_t_of_jlong.
    split; [by apply (congruent_mod_32 word)|].
    split; [intros Hfit _; by apply unsigned_id|].
    split; [|discriminate]. intros _.
    split; [reflexivity|]. split; [exact Hbound|]. split; [exact Hcong|].
    split; [intros Hfit; by apply unsigned_id|].
    unfold Int.unsigned in *. split; intros; lia.
  - destruct (os_sendfile6 fd (get_fd sd (world s)) (off_t_of_jlong offset)
                (off_t_of_size_t (size_t_of_jlong count)) (world s))
      as [[result len'] w2] eqn:Hos.
    rewrite (OSFileSystem_transfer_adapter_run _ _ _ _ _ _ _ _ Hcfg Hsock Hos).
    eexists _, _, (off_t_of_size_t (size_t_of_jlong count)).
    split; [reflexivity|]. split; [reflexivity|].
    unfold off_t_of_size_t, size_t_of_jlong.
    split; [|split; [|split; [discriminate|]]].
    + pose proof (signed_congruent off (Int.unsigned word count)) as Hsig.
      apply (congruent_mod_32 off) in Hsig.
      apply (congruent_mod_32 word) in Hcong.
      replace (Int.signed off (Int.unsigned word count) - count)
        with ((Int.signed off (Int.unsigned word count)
               - Int.unsigned word count)
              + (Int.unsigned word count - count)) by lia.
      apply Z.mod_divide in Hsig, Hcong; try lia.
      apply Z.mod_divide; [lia|]. by apply Z.divide_add_r.
    + intros Hfit Hhalf. rewrite (unsigned_id word count Hfit).
      apply signed_id. unfold Int.in_signed.
      assert (0 < Int.half_modulus off) by (destruct off; reflexivity).
      lia.
    + intros _. split; [reflexivity|]. apply signed_range.
Qed.

(** X10: [OSFileSystem_transfer] does not check [offset] either.  Where
    [off_t] has 32 bits, an offset outside the 32-bit range reaches the
    system call wrapped modulo [2^32], so as another offset than the
    caller's. *)
Theorem transfer_offset_wraps_32 fd sd offset count (s : State W) :
  off = Int.W32 ->
  ~ is_jint offset ->
  get_fd sd (world s) <> -1 ->
  exists r s' o,
    OSFileSystem_transfer fd sd offset count s = Some (r, s') /\
    calls s' =
    (if HAVE_SYS_SENDFILE_H
     then SysSendfile (get_fd sd (world s)) fd o (size_t_of_jlong count)
     else SysSendfile6 fd (get_fd sd (world s)) o
                       (off_t_of_size_t (size_t_of_jlong count)))
      :: calls s /\
    is_jint o /\ o <> offset /\ (o - offset) mod 2 ^ 32 = 0.
Proof.
  intros Hoff Hout Hsock.
  assert (Ho : is_jint (off_t_of_jlong offset) /\
               off_t_of_jlong offset <> offset /\
               (off_t_of_jlong offset - offset) mod 2 ^ 32 = 0).
  { unfold off_t_of_jlong. rewrite Hoff.
    pose proof (signed_range Int.W32 offset) as Hr.
    pose proof (signed_congruent Int.W32 offset) as Hc.
    unfold Int.in_signed, Int.half_modulus in Hr. simpl in Hr.
    unfold Int.modulus in Hc. simpl in Hc.
    assert (Hj : is_jint (Int.signed Int.W32 offset))
      by (unfold is_jint, jint_min, jint_max; lia).
    split; [exact Hj|]. split; [|exact Hc].
    intros Heq. apply Hout. by rewrite <- Heq. }
  destruct HAVE_SYS_SENDFILE_H eqn:Hcfg.
  - destruct (os_sendfile (get_fd sd (world s)) fd (off_t_of_jlong offset)
                (size_t_of_jlong count) (world s)) as [[rc off'] w2] eqn:Hos.
    rewrite (OSFileSystem_transfer_linux_run _ _ _ _ _ _ _ _ Hcfg Hsock Hos).
    eexists _, _, _. split; [reflexivity|]. split; [reflexivity|]. exact Ho.
  - destruct (os_sendfile6 fd (get_fd sd (world s)) (off_t_of_jlong offset)
                (off_t_of_size_t (size_t_of_jlong count)) (world s))
      as [[result len'] w2] eqn:Hos.
    rewrite (OSFileSystem_transfer_adapter_run _ _ _ _ _ _ _ _ Hcfg Hsock Hos).
    eexists _, _, _. split; [reflexivity|]. split; [reflexivity|]. exact Ho.
Qed.

(** X11: No entry point makes more than one system call, and none makes a
    call of another kind: a call of [OSFileSystem_readv] adds nothing to the
    log or one [readv] with the caller's descriptor and count,
    [OSFileSystem_writev] nothing or one [writev], and
    [OSFileSystem_transfer] nothing or one [sendfile] between the caller's
    file descriptor and the resolved socket. *)
Theorem at_most_one_system_call :
  (forall fd jB jO jL size (s s' : State W) r,
      OSFileSystem_readv fd jB jO jL size s = Some (r, s') ->
      calls s' = calls s \/
      exists vectors, calls s' = SysReadv fd vectors size :: calls s)
  /\
  (forall fd jB jO jL size (s s' : State W) r,
      OSFileSystem_writev fd jB jO jL size s = Some (r, s') ->
      calls s' = calls s \/
      exists vectors, calls s' = SysWritev fd vectors size :: calls s)
  /\
  (forall fd sd offset count (s s' : State W) r,
      OSFileSystem_transfer fd sd offset count s = Some (r, s') ->
      calls s' = calls s \/
      exists o c,
        calls s' = SysSendfile (get_fd sd (world s)) fd o c :: calls s \/
        calls s' = SysSendfile6 fd (get_fd sd (world s)) o c :: calls s).
Proof.
  repeat split.
  - intros fd jB jO jL size s s' r.
    destruct (initIoVec jB jO jL size s) as [[[vectors|] s1]|] eqn:Hinit.
    + destruct (os_readv fd vectors size (world s1)) as [rc w2] eqn:Hos.
      rewrite (OSFileSystem_readv_run _ _ _ _ _ _ _ _ _ _ Hinit Hos).
      intros [= _ <-]. right. by exists vectors.
    + rewrite (OSFileSystem_readv_null _ _ _ _ _ _ _ Hinit).
      intros [= _ <-]. left.
      by destruct (initIoVec_None_inv _ _ _ _ _ _ Hinit) as (Hc & _).
    + unfold OSFileSystem_readv, bind. rewrite Hinit. discriminate.
  - intros fd jB jO jL size s s' r.
    destruct (initIoVec jB jO jL size s) as [[[vectors|] s1]|] eqn:Hinit.
    + destruct (os_writev fd vectors size (world s1)) as [rc w2] eqn:Hos.
      rewrite (OSFileSystem_writev_run _ _ _ _ _ _ _ _ _ _ Hinit Hos).
      intros [= _ <-]. right. by exists vectors.
    + rewrite (OSFileSystem_writev_null _ _ _ _ _ _ _ Hinit).
      intros [= _ <-]. left.
      by destruct (initIoVec_None_inv _ _ _ _ _ _ Hinit) as (Hc & _).
    + unfold OSFileSystem_writev, bind. rewrite Hinit. discriminate.
  - intros fd sd offset count s s' r.
    destruct (decide (get_fd sd (world s) = -1)) as [Hsock|Hsock].
    + rewrite (OSFileSystem_transfer_unresolved_run _ _ _ _ _ Hsock).
      intros [= _ <-]. by left.
    + destruct HAVE_SYS_SENDFILE_H eqn:Hcfg.
      * destruct (os_sendfile (get_fd sd (world s)) fd
                    (off_t_of_jlong offset) (size_t_of_jlong count) (world s))
          as [[rc off'] w2] eqn:Hos.
        rewrite (OSFileSystem_transfer_linux_run _ _ _ _ _ _ _ _
                   Hcfg Hsock Hos).
        intros [= _ <-]. right. eexists _, _. left. reflexivity.
      * destruct (os_sendfile6 fd (get_fd sd (world s))
                    (off_t_of_jlong offset)
                    (off_t_of_size_t (size_t_of_jlong count)) (world s))
          as [[result len'] w2] eqn:Hos.
        rewrite (OSFileSystem_transfer_adapter_run _ _ _ _ _ _ _ _
                   Hcfg Hsock Hos).
        intros [= _ <-]. right. eexists _, _. right. reflexivity.
Qed.

End EntryPointProperties.

(* ===================================================================== *)
(** ** The further properties at work on the reference machine *)
(* ===================================================================== *)

Section MoreExamples.

Import Ref.
Local Existing Instance linux32.

Local Abbreviation two_buffers :=
  [mk_iovec 200 3; mk_iovec 203 5] (only parsing).

Local Abbreviation after_EBADF :=
  (snd (fail tt EBADF demo_machine)) (only parsing).

(** Two entries asked of arrays of two elements, and three asked of them. *)
Lemma initIoVec_defined_iff_witness :
  (initIoVec (IntArray [100; 50]) (IntArray [0; 53]) (IntArray [3; 5]) 2 demo
   <> None
   <-> (Z.to_nat 2 <= length [100; 50] /\ Z.to_nat 2 <= length [0; 53] /\
        Z.to_nat 2 <= length [3; 5])%nat)
  /\
  (initIoVec (IntArray [100; 50]) (IntArray [0; 53]) (IntArray [3; 5]) 3 demo
   <> None
   <-> (Z.to_nat 3 <= length [100; 50] /\ Z.to_nat 3 <= length [0; 53] /\
        Z.to_nat 3 <= length [3; 5])%nat).
Proof.
  split.
  - exact (initIoVec_defined_iff [100; 50] [0; 53] [3; 5] 2 demo demo_machine
             eq_refl).
  - exact (initIoVec_defined_iff [100; 50] [0; 53] [3; 5] 3 demo demo_machine
             eq_refl).
Defined.

Lemma initIoVec_builds_iovecs_of_witness :
  exists buffers offsets lengths,
    IntArray [100; 50] = IntArray buffers /\
    IntArray [0; 53] = IntArray offsets /\
    IntArray [3; 5] = IntArray lengths /\
    [mk_iovec 100 3; mk_iovec 103 5]
    = iovecs_of buffers offsets lengths (Z.to_nat 2) /\
    length [mk_iovec 100 3; mk_iovec 103 5] = Z.to_nat 2.
Proof.
  apply (initIoVec_builds_iovecs_of (IntArray [100; 50]) (IntArray [0; 53])
           (IntArray [3; 5]) 2 demo demo).
  reflexivity.
Defined.

(** The length -1 becomes [2^32 - 1] on the 32-bit target. *)
Lemma initIoVec_negative_length_witness :
  exists vectors e,
    initIoVec (IntArray [200; 203]) (IntArray [0; 0]) (IntArray [-1; 5]) 2 demo
    = Some (Some vectors, demo) /\
    vectors !! 0%nat = Some e /\
    iov_len e = -1 + Int.modulus word /\
    jint_max < iov_len e.
Proof.
  assert (Hlen : (Z.to_nat 2 <= 2)%nat) by lia.
  assert (Hi : (0 < Z.to_nat 2)%nat) by lia.
  assert (Hjint : is_jint (-1))
    by (unfold is_jint, jint_min, jint_max; lia).
  assert (Hneg : -1 < 0) by lia.
  exact (initIoVec_negative_length [200; 203] [0; 0] [-1; 5] 2 demo
           demo_machine 0 (-1) eq_refl Hlen Hlen Hlen Hi eq_refl Hjint Hneg).
Defined.

Lemma initIoVec_total_length_witness :
  exists vectors,
    initIoVec (IntArray [100; 103]) (IntArray [0; 0]) (IntArray [3; 5]) 2 demo
    = Some (Some vectors, demo) /\
    total_length vectors = foldr Z.add 0 (take (Z.to_nat 2) [3; 5]).
Proof.
  assert (Hlen : (Z.to_nat 2 <= 2)%nat) by lia.
  assert (Hpos : Forall (fun l => 0 <= l <= jint_max)
                        (take (Z.to_nat 2) [3; 5]))
    by (simpl; repeat constructor; unfold jint_max; lia).
  exact (initIoVec_total_length [100; 103] [0; 0] [3; 5] 2 demo demo_machine
           eq_refl Hlen Hlen Hlen Hpos).
Defined.

(** Asking descriptor 5, which holds three bytes, for 3 + 5. *)
Lemma readv_count_returned_witness :
  OSFileSystem_readv 5 (IntArray [200; 203]) (IntArray [0; 0])
                     (IntArray [3; 5]) 2 demo
  = Some (3, mk_State None [SysReadv 5 two_buffers 2]
                      (snd (ref_readv 5 two_buffers 2 demo_machine))).
Proof.
  apply (readv_count_returned 5 _ _ _ 2 demo demo two_buffers 3).
  - reflexivity.
  - vm_compute. reflexivity.
  - lia.
Defined.

(** Writing to descriptor 4, which is not open. *)
Lemma writev_minus_one_raises_witness :
  exists t,
    pending (mk_State (Some (IOException EBADF)) [SysWritev 4 two_buffers 2]
                      after_EBADF) = Some t.
Proof.
  apply (writev_minus_one_raises 4 (IntArray [200; 203]) (IntArray [0; 0])
           (IntArray [3; 5]) 2 demo).
  vm_compute. reflexivity.
Defined.

(** Sending the empty file on descriptor 3 to the socket of object 7. *)
Lemma transfer_count_returned_witness :
  OSFileSystem_transfer 3 7 0 2 demo
  = Some (0, mk_State None [SysSendfile 5 3 0 2]
                      (snd (ref_sendfile 5 3 0 2 demo_machine))).
Proof.
  assert (Hsocket : get_fd 7 (world demo) <> -1)
    by (vm_compute; discriminate).
  assert (Hos : os_sendfile (get_fd 7 (world demo)) 3 (off_t_of_jlong 0)
                            (size_t_of_jlong 2) (world demo)
                = ((0, 0), snd (ref_sendfile 5 3 0 2 demo_machine)))
    by (vm_compute; reflexivity).
  assert (Hrc : 0 <= 0) by lia.
  exact (transfer_count_returned 3 7 0 2 demo 0 0 _ eq_refl Hsocket Hos Hrc).
Defined.

(** The adapter, on a descriptor that is not open and on the empty file. *)
Lemma transfer_adapter_result_witness :
  @OSFileSystem_transfer host64 _ _ 4 7 1 2 demo
  = Some (-1, mk_State (Some (IOException EBADF)) [SysSendfile6 4 5 1 2]
                       after_EBADF)
  /\
  @OSFileSystem_transfer host64 _ _ 3 7 0 2 demo
  = Some (0, mk_State None [SysSendfile6 3 5 0 2]
                      (snd (ref_sendfile6 3 5 0 2 demo_machine))).
Proof.
  assert (Hsocket : get_fd 7 (world demo) <> -1)
    by (vm_compute; discriminate).
  assert (Hfail : os_sendfile6 4 (get_fd 7 (world demo))
                    (@off_t_of_jlong host64 1)
                    (@off_t_of_size_t host64 (@size_t_of_jlong host64 2))
                    (world demo)
                  = ((-1, 0), after_EBADF))
    by (vm_compute; reflexivity).
  assert (Hsent : os_sendfile6 3 (get_fd 7 (world demo))
                    (@off_t_of_jlong host64 0)
                    (@off_t_of_size_t host64 (@size_t_of_jlong host64 2))
                    (world demo)
                  = ((0, 0), snd (ref_sendfile6 3 5 0 2 demo_machine)))
    by (vm_compute; reflexivity).
  assert (Hneg : -1 < 0) by lia.
  assert (Hpos : 0 <= 0) by lia.
  assert (Hlen : 0 <= 0 < @Int.half_modulus (@word host64))
    by (vm_compute; split; [discriminate|reflexivity]).
  split.
  - exact (proj1 (@transfer_adapter_result host64 machine ref_World
                    4 7 1 2 demo (-1) 0 _ eq_refl Hsocket Hfail) Hneg).
  - exact (proj2 (@transfer_adapter_result host64 machine ref_World
                    3 7 0 2 demo 0 0 _ eq_refl Hsocket Hsent) Hpos Hlen).
Defined.

(** A count of -1: [2^32 - 1] for the 32-bit [size_t] of the Linux build,
    and [len = -1] for the adapter of the 64-bit host. *)
Lemma transfer_count_converted_witness :
  (exists r s' a,
      OSFileSystem_transfer 4 7 1 (-1) demo = Some (r, s') /\
      calls s' = [SysSendfile 5 4 1 a] /\
      a = 4294967295)
  /\
  (exists r s' a,
      @OSFileSystem_transfer host64 _ _ 4 7 1 (-1) demo = Some (r, s') /\
      calls s' = [SysSendfile6 4 5 1 a] /\
      a = -1).
Proof.
  assert (Hsocket : get_fd 7 (world demo) <> -1)
    by (vm_compute; discriminate).
  split.
  - destruct (@transfer_count_converted linux32 machine ref_World
                4 7 1 (-1) demo Hsocket)
      as (r & s' & a & Hrun & Hcalls & _ & _ & Hlinux & _).
    destruct (Hlinux eq_refl) as (Ha & _).
    exists r, s', a. split; [exact Hrun|]. split; [|exact Ha].
    rewrite Hcalls, Ha. reflexivity.
  - destruct (@transfer_count_converted host64 machine ref_World
                4 7 1 (-1) demo Hsocket)
      as (r & s' & a & Hrun & Hcalls & _ & _ & _ & Hadapter).
    destruct (Hadapter eq_refl) as (Ha & _).
    exists r, s', a. split; [exact Hrun|]. split; [|exact Ha].
    rewrite Hcalls, Ha. reflexivity.
Defined.

(** The offset [2^32 + 7] on the 32-bit target. *)
Lemma transfer_offset_wraps_32_witness :
  exists r s' o,
    OSFileSystem_transfer 4 7 4294967303 2 demo = Some (r, s') /\
    calls s' =
    (if HAVE_SYS_SENDFILE_H
     then SysSendfile (get_fd 7 (world demo)) 4 o (size_t_of_jlong 2)
     else SysSendfile6 4 (get_fd 7 (world demo)) o
                       (off_t_of_size_t (size_t_of_jlong 2)))
      :: calls demo /\
    is_jint o /\ o <> 4294967303 /\ (o - 4294967303) mod 2 ^ 32 = 0.
Proof.
  assert (Hout : ~ is_jint 4294967303)
    by (unfold is_jint, jint_min, jint_max; lia).
  assert (Hsocket : get_fd 7 (world demo) <> -1)
    by (vm_compute; discriminate).
  exact (transfer_offset_wraps_32 4 7 4294967303 2 demo eq_refl Hout Hsocket).
Defined.

Lemma at_most_one_system_call_witness :
  (calls (mk_State None [SysReadv 3 two_buffers 2] demo_machine) = calls demo
   \/ exists vectors,
       calls (mk_State None [SysReadv 3 two_buffers 2] demo_machine)
       = SysReadv 3 vectors 2 :: calls demo)
  /\
  (calls (mk_State (Some OutOfMemoryError) [] demo_machine) = calls demo
   \/ exists vectors,
       calls (mk_State (Some OutOfMemoryError) [] demo_machine)
       = SysWritev 3 vectors 17 :: calls demo)
  /\
  (calls demo = calls demo
   \/ exists o c,
       calls demo = SysSendfile (get_fd 8 (world demo)) 5 o c :: calls demo \/
       calls demo = SysSendfile6 5 (get_fd 8 (world demo)) o c :: calls demo).
Proof.
  destruct (@at_most_one_system_call linux32 machine ref_World)
    as (Hreadv & Hwritev & Htransfer).
  repeat split.
  - apply (Hreadv 3 (IntArray [200; 203]) (IntArray [0; 0])
                  (IntArray [3; 5]) 2 demo _ (-1)).
    vm_compute. reflexivity.
  - apply (Hwritev 3 (IntArray [200]) (IntArray [0]) (IntArray [3]) 17
                   demo _ (-1)).
    vm_compute. reflexivity.
  - apply (Htransfer 5 8 0 3 demo demo (-1)).
    vm_compute. reflexivity.
Defined.

End MoreExamples.
